(** * The server role of websocketpp: the opening handshake

    A shallow embedding of [src/roles/server.hpp]: the per-connection
    handshake ([handle_read_request], [write_response],
    [handle_write_response], [log_open_result]) and the negotiation setters
    ([select_subprotocol], [select_extension], [set_body]), then the
    accessors of the connection and the accept loop of the server
    ([listen], [start_accept], [handle_accept]).

    The member functions mutate the connection and throw C++ exceptions, so
    they are written in a state-and-exception monad over the connection
    record.  Dereferencing a null [uri_ptr] or [processor::ptr] is undefined
    behaviour and has an outcome of its own.  The asynchronous operations
    ([async_write]) and the calls into the session ([terminate],
    [handle_read_frame]), the logs and the handler are recorded in an event
    trace carried by the connection. *)

From Stdlib Require Import ZArith NArith String Ascii List Bool Lia.
From stdpp Require Import base gmap strings list.

Import ListNotations.
Local Open Scope string_scope.
Local Open Scope Z_scope.
Local Open Scope list_scope.

(** ** Strings and C library functions used by the role *)

Definition is_digit (c : ascii) : bool :=
  let n := N_of_ascii c in (48 <=? n)%N && (n <=? 57)%N.

(** [isspace] in the C locale: space, and HT LF VT FF CR. *)
Definition is_space (c : ascii) : bool :=
  let n := N_of_ascii c in (n =? 32)%N || ((9 <=? n)%N && (n <=? 13)%N).

Definition digit_value (c : ascii) : Z := Z.of_N (N_of_ascii c) - 48.

Fixpoint skip_space (s : string) : string :=
  match s with
  | String c r => if is_space c then skip_space r else s
  | EmptyString => s
  end.

(** The leading decimal digits of [s], accumulated onto [acc]; conversion
    stops at the first character that is not a digit. *)
Fixpoint digits_value (acc : Z) (s : string) : Z :=
  match s with
  | String c r => if is_digit c then digits_value (10 * acc + digit_value c) r else acc
  | EmptyString => acc
  end.

Definition LONG_MAX : Z := 2 ^ 63 - 1.
Definition LONG_MIN : Z := - 2 ^ 63.

Definition clamp_long (z : Z) : Z := Z.max LONG_MIN (Z.min LONG_MAX z).

(** [strtol(s, NULL, 10)] on an LP64 platform: leading white space, an
    optional sign, decimal digits; out-of-range values saturate. *)
Definition strtol (s : string) : Z :=
  match skip_space s with
  | String "-"%char r => clamp_long (- digits_value 0 r)
  | String "+"%char r => clamp_long (digits_value 0 r)
  | r => clamp_long (digits_value 0 r)
  end.

(** Conversion of a [long] to [int]: wrap-around to 32 bits, two's complement. *)
Definition to_int (z : Z) : Z := (z + 2 ^ 31) mod 2 ^ 32 - 2 ^ 31.

(** [atoi(s)] is [(int) strtol(s, NULL, 10)].  The C standard leaves the
    result undefined when the value does not fit an [int]; the common
    implementation, followed here, converts the saturated [long]. *)
Definition atoi (s : string) : Z := to_int (strtol s).

Definition to_lower_char (c : ascii) : ascii :=
  let n := N_of_ascii c in
  if (65 <=? n)%N && (n <=? 90)%N then ascii_of_N (n + 32) else c.

Fixpoint to_lower (s : string) : string :=
  match s with
  | String c r => String (to_lower_char c) (to_lower r)
  | EmptyString => EmptyString
  end.

(** Does [search] occur in [input]? *)
Fixpoint find_first (input search : string) : bool :=
  String.prefix search input ||
  match input with
  | String _ r => find_first r search
  | EmptyString => false
  end.

(** [boost::ifind_first(input, search)] used as a condition: true when
    [search] occurs in [input], letter case ignored. *)
Definition ifind_first (input search : string) : bool :=
  find_first (to_lower input) (to_lower search).

(** [s.find(c)] for a one-character needle; [None] is [std::string::npos]. *)
Fixpoint find (s : string) (c : ascii) : option nat :=
  match s with
  | String d r =>
      if Ascii.eqb d c then Some O
      else match find r c with Some i => Some (S i) | None => None end
  | EmptyString => None
  end.

(** The first [n] characters of [s], or all of it. *)
Fixpoint substr_to (s : string) (n : nat) : string :=
  match n, s with
  | S m, String c r => String c (substr_to r m)
  | _, _ => EmptyString
  end.

(** [s] without its first [pos] characters. *)
Fixpoint substr_from (s : string) (pos : nat) {struct pos} : string :=
  match pos with
  | O => s
  | S m =>
      match s with
      | String _ r => substr_from r m
      | EmptyString => s
      end
  end.

(** [s.substr(pos, n)], and [s.substr(pos)] when [n] is [None], for [pos]
    at most the length of [s] (beyond it the C++ function throws; the role
    never asks for that). *)
Definition substr (s : string) (pos : nat) (n : option nat) : string :=
  match n with
  | Some len => substr_to (substr_from s pos) len
  | None => substr_from s pos
  end.

(** ** The HTTP message model

    Modelled from the spec: [http::parser::request], [http::parser::response],
    [http::exception] and the status codes live in the http headers, which
    are not under src/.  The spec gives them as value objects with header
    lookup; the role only calls the operations below.  A header that is not
    present reads as the empty string. *)

Definition SWITCHING_PROTOCOLS : Z := 101.
Definition OK : Z := 200.
Definition BAD_REQUEST : Z := 400.

Definition get_string (code : Z) : string :=
  if decide (code = SWITCHING_PROTOCOLS) then "Switching Protocols"
  else if decide (code = OK) then "OK"
  else if decide (code = BAD_REQUEST) then "Bad Request"
  else "Unknown".

(** Header names are looked up without regard to letter case: a header is
    kept under its name in lower case. *)
Definition header_key (key : string) : string := to_lower key.

Definition find_header (headers : gmap string string) (key : string) : option string :=
  headers !! header_key key.

Definition header (headers : gmap string string) (key : string) : string :=
  default "" (find_header headers key).

Record request := mk_request {
  request_uri : string;
  request_headers : gmap string string
}.

Definition request_header (r : request) (key : string) : string :=
  header (request_headers r) key.

Record response := mk_response {
  response_version : string;
  status_code : Z;
  status_msg : string;
  response_headers : gmap string string;
  response_body : string
}.

Definition response_header (r : response) (key : string) : string :=
  header (response_headers r) key.

(** The mutators of [http::parser::response]. *)
Module Response.

Definition set_headers (r : response) (h : gmap string string) : response :=
  mk_response (response_version r) (status_code r) (status_msg r) h (response_body r).

Definition set_version (r : response) (v : string) : response :=
  mk_response v (status_code r) (status_msg r) (response_headers r) (response_body r).

(** [set_status(code)] takes the message from the table of reason phrases. *)
Definition set_status (r : response) (code : Z) : response :=
  mk_response (response_version r) code (get_string code) (response_headers r) (response_body r).

(** [set_status(code, msg)]. *)
Definition set_status_msg (r : response) (code : Z) (msg : string) : response :=
  mk_response (response_version r) code msg (response_headers r) (response_body r).

Definition set_body (r : response) (value : string) : response :=
  mk_response (response_version r) (status_code r) (status_msg r) (response_headers r) value.

(** Repeated [add_header] calls on one key aggregate the values. *)
Definition add_header (r : response) (key val : string) : response :=
  set_headers r
    (if decide (response_header r key = "")
     then <[header_key key := val]> (response_headers r)
     else <[header_key key := response_header r key +:+ ", " +:+ val]> (response_headers r)).

Definition replace_header (r : response) (key val : string) : response :=
  set_headers r (<[header_key key := val]> (response_headers r)).

Definition remove_header (r : response) (key : string) : response :=
  set_headers r (delete (header_key key) (response_headers r)).

End Response.

Definition response_init : response := mk_response "" 0 "" ∅ "".
Definition request_init : request := mk_request "" ∅.

(** The exceptions the role throws or catches: [http::exception] with its
    four members, [uri_exception] and [std::invalid_argument]. *)
Inductive exn :=
| http_exception (m_msg : string) (m_error_code : Z) (m_error_msg m_body : string)
| uri_exception (m_msg : string)
| invalid_argument (m_msg : string).

(** The outcome of calling into a collaborator that may throw. *)
Inductive returns (A : Type) :=
| returned (a : A)
| threw (e : exn).
Arguments returned {A} a.
Arguments threw {A} e.

(** ** The uri value object

    Modelled from the spec: [uri] and its constructors live in uri.hpp, which
    is not under src/.  The spec gives the four fields; the three-argument
    constructor takes the default port of the scheme, the four-argument one
    parses the port from a string and throws [uri_exception] when it cannot.
    The default port and the port parser are parameters. *)
Record uri := mk_uri {
  get_secure : bool;
  get_host : string;
  get_port : N;
  get_resource : string
}.

Section Uri.
Variable default_port : bool -> N.
Variable get_port_from_string : string -> option N.

Definition uri3 (secure : bool) (host resource : string) : returns uri :=
  returned (mk_uri secure host (default_port secure) resource).

Definition uri4 (secure : bool) (host port resource : string) : returns uri :=
  match get_port_from_string port with
  | Some p => returned (mk_uri secure host p resource)
  | None => threw (uri_exception "Error parsing port string")
  end.
End Uri.

(** ** The protocol processor

    The interface of [processor::ptr] the role calls.  [validate_handshake]
    and [get_uri] may throw; [get_uri] returns a [uri_ptr], which may be
    null. *)
Record processor := mk_processor {
  validate_handshake : request -> returns unit;
  get_origin : request -> string;
  get_uri : request -> returns (option uri);
  handshake_response : request -> response -> response
}.

(** ** The connection *)

Inductive state := CONNECTING | OPEN | CLOSED.

(** What the role writes to the logs.  The access log gets the raw request,
    the raw response and, from [log_open_result], the connect line. *)
Inductive log_entry :=
| elog (msg : string)
| alog_request (raw : request)
| alog_response (raw : response)
| alog_connect (websocket : bool) (version : Z) (user_agent resource : string) (status : Z).

(** The effects of the role on the world outside it, in the order they
    happen. *)
Inductive event :=
| ev_log (l : log_entry)
| ev_terminate (failed_by_me : bool)
| ev_validate_handshake
| ev_validate
| ev_http
| ev_on_open
| ev_async_write (raw : response)
| ev_handle_read_frame.

(** The members of [server::connection], the members of [m_connection] the
    role reads or writes ([m_state], [m_processor], [buffer()]), and the
    trace of events. *)
Record connection := mk_connection {
  m_version : Z;
  m_uri : option uri;
  m_origin : string;
  m_requested_subprotocols : list string;
  m_requested_extensions : list string;
  m_subprotocol : string;
  m_extensions : list string;
  m_request : request;
  m_response : response;
  m_state : state;
  m_processor : option processor;
  buffer : string;
  events : list event
}.

Definition with_version (c : connection) (v : Z) : connection :=
  mk_connection v (m_uri c) (m_origin c) (m_requested_subprotocols c)
    (m_requested_extensions c) (m_subprotocol c) (m_extensions c) (m_request c)
    (m_response c) (m_state c) (m_processor c) (buffer c) (events c).

Definition with_uri (c : connection) (u : option uri) : connection :=
  mk_connection (m_version c) u (m_origin c) (m_requested_subprotocols c)
    (m_requested_extensions c) (m_subprotocol c) (m_extensions c) (m_request c)
    (m_response c) (m_state c) (m_processor c) (buffer c) (events c).

Definition with_origin (c : connection) (o : string) : connection :=
  mk_connection (m_version c) (m_uri c) o (m_requested_subprotocols c)
    (m_requested_extensions c) (m_subprotocol c) (m_extensions c) (m_request c)
    (m_response c) (m_state c) (m_processor c) (buffer c) (events c).

Definition with_subprotocol (c : connection) (s : string) : connection :=
  mk_connection (m_version c) (m_uri c) (m_origin c) (m_requested_subprotocols c)
    (m_requested_extensions c) s (m_extensions c) (m_request c)
    (m_response c) (m_state c) (m_processor c) (buffer c) (events c).

Definition with_extensions (c : connection) (l : list string) : connection :=
  mk_connection (m_version c) (m_uri c) (m_origin c) (m_requested_subprotocols c)
    (m_requested_extensions c) (m_subprotocol c) l (m_request c)
    (m_response c) (m_state c) (m_processor c) (buffer c) (events c).

Definition with_request (c : connection) (r : request) : connection :=
  mk_connection (m_version c) (m_uri c) (m_origin c) (m_requested_subprotocols c)
    (m_requested_extensions c) (m_subprotocol c) (m_extensions c) r
    (m_response c) (m_state c) (m_processor c) (buffer c) (events c).

Definition with_response (c : connection) (r : response) : connection :=
  mk_connection (m_version c) (m_uri c) (m_origin c) (m_requested_subprotocols c)
    (m_requested_extensions c) (m_subprotocol c) (m_extensions c) (m_request c)
    r (m_state c) (m_processor c) (buffer c) (events c).

Definition with_state (c : connection) (s : state) : connection :=
  mk_connection (m_version c) (m_uri c) (m_origin c) (m_requested_subprotocols c)
    (m_requested_extensions c) (m_subprotocol c) (m_extensions c) (m_request c)
    (m_response c) s (m_processor c) (buffer c) (events c).

Definition with_processor (c : connection) (p : option processor) : connection :=
  mk_connection (m_version c) (m_uri c) (m_origin c) (m_requested_subprotocols c)
    (m_requested_extensions c) (m_subprotocol c) (m_extensions c) (m_request c)
    (m_response c) (m_state c) p (buffer c) (events c).

Definition with_buffer (c : connection) (b : string) : connection :=
  mk_connection (m_version c) (m_uri c) (m_origin c) (m_requested_subprotocols c)
    (m_requested_extensions c) (m_subprotocol c) (m_extensions c) (m_request c)
    (m_response c) (m_state c) (m_processor c) b (events c).

Definition with_events (c : connection) (l : list event) : connection :=
  mk_connection (m_version c) (m_uri c) (m_origin c) (m_requested_subprotocols c)
    (m_requested_extensions c) (m_subprotocol c) (m_extensions c) (m_request c)
    (m_response c) (m_state c) (m_processor c) (buffer c) l.

(** The constructor: [m_version(-1)], a null [m_uri], everything else
    default-constructed; the session starts in CONNECTING with no processor.
    [buf] is what [async_read_until] left in the buffer. *)
Definition connection_init (buf : string) : connection :=
  mk_connection (-1) None "" [] [] "" [] request_init response_init
    CONNECTING None buf [].

(** ** The monad of member functions *)

(** An outcome of a member function on a connection: it returned [a], it
    threw [e], or it dereferenced a null pointer; [c] is the connection at
    that point. *)
Inductive result (A : Type) :=
| Normal (a : A) (c : connection)
| Thrown (e : exn) (c : connection)
| Undefined (c : connection).
Arguments Normal {A} a c.
Arguments Thrown {A} e c.
Arguments Undefined {A} c.

Definition M (A : Type) : Type := connection -> result A.

Definition ret {A} (a : A) : M A := fun c => Normal a c.

(** A statement followed by the rest of the function: the rest runs on the
    outcome of the statement, unless it threw or went wrong. *)
Definition and_then {A B} (r : result A) (k : A -> M B) : result B :=
  match r with
  | Normal a c => k a c
  | Thrown e c => Thrown e c
  | Undefined c => Undefined c
  end.

Definition bind {A B} (m : M A) (k : A -> M B) : M B :=
  fun c => and_then (m c) k.

Definition throw {A} (e : exn) : M A := fun c => Thrown e c.

Definition gets {A} (f : connection -> A) : M A := fun c => Normal (f c) c.

Definition modify (f : connection -> connection) : M unit := fun c => Normal tt (f c).

(** [try { body } catch (...) { ... }]: [handlers e] is the catch clause
    that matches [e], if one does; otherwise [e] propagates. *)
Definition caught (handlers : exn -> option (M unit)) (e : exn) : M unit :=
  match handlers e with
  | Some h => h
  | None => throw e
  end.

Definition try_catch (body : M unit) (handlers : exn -> option (M unit)) : M unit :=
  fun c =>
    match body c with
    | Thrown e c' => caught handlers e c'
    | r => r
    end.

Declare Scope role_scope.
Delimit Scope role_scope with role.
Notation "x <- m ;; k" := (bind m (fun x => k))
  (at level 100, m at next level, k at level 200, right associativity) : role_scope.
Notation "m ;; k" := (bind m (fun _ => k))
  (at level 100, k at level 200, right associativity) : role_scope.
Local Open Scope role_scope.

Definition emit (e : event) : M unit :=
  modify (fun c => with_events c (events c ++ [e])).

Definition log (l : log_entry) : M unit := emit (ev_log l).

(** Modelled from the spec: [m_connection.terminate] is defined by the
    session (connection.hpp, not under src/); every termination leaves the
    connection CLOSED. *)
Definition terminate (failed_by_me : bool) : M unit :=
  emit (ev_terminate failed_by_me) ;;
  modify (fun c => with_state c CLOSED).

Definition handle_read_frame : M unit := emit ev_handle_read_frame.

Definition on_response (f : response -> response) : M unit :=
  modify (fun c => with_response c (f (m_response c))).

(** [p->...] on a smart pointer: undefined behaviour when it is null. *)
Definition deref {A} (p : connection -> option A) : M A :=
  fun c =>
    match p c with
    | Some a => Normal a c
    | None => Undefined c
    end.

(** A call into a collaborator that may throw. *)
Definition call {A} (r : returns A) : M A :=
  match r with
  | returned a => ret a
  | threw e => throw e
  end.

(** ** The public interface of the connection *)

Definition add_response_header (key value : string) : M unit :=
  on_response (fun r => Response.add_header r key value).

Definition replace_response_header (key value : string) : M unit :=
  on_response (fun r => Response.replace_header r key value).

Definition remove_response_header (key : string) : M unit :=
  on_response (fun r => Response.remove_header r key).

(** [std::find(v.begin(), v.end(), value) == v.end()]. *)
Definition not_found (value : string) (v : list string) : bool :=
  negb (existsb (String.eqb value) v).

Definition select_subprotocol (value : string) : M unit :=
  requested <- gets m_requested_subprotocols ;;
  (if negb (String.eqb value "") && not_found value requested then
     throw (invalid_argument "Attempted to choose a subprotocol not proposed by the client")
   else ret tt) ;;
  modify (fun c => with_subprotocol c value).

Definition select_extension (value : string) : M unit :=
  if String.eqb value "" then ret tt
  else
    requested <- gets m_requested_extensions ;;
    (if not_found value requested then
       throw (invalid_argument "Attempted to choose an extension not proposed by the client")
     else ret tt) ;;
    modify (fun c => with_extensions c (m_extensions c ++ [value])).

Definition set_body (value : string) : M unit :=
  v <- gets m_version ;;
  (if negb (v =? -1) then
     throw (invalid_argument "set_body called from invalid state")
   else ret tt) ;;
  on_response (fun r => Response.set_body r value).

(** ** The handler

    A handler method receives the connection and can act on it only through
    the public interface above, or throw.  Its body is modelled as the
    sequence of calls it makes, which it chooses from what it reads off the
    connection; an exception thrown by a call is not caught by the handler
    and ends the method. *)
Inductive api_call :=
| call_add_response_header (key value : string)
| call_replace_response_header (key value : string)
| call_remove_response_header (key : string)
| call_select_subprotocol (value : string)
| call_select_extension (value : string)
| call_set_body (value : string)
| call_throw (e : exn).

Definition run_call (a : api_call) : M unit :=
  match a with
  | call_add_response_header k v => add_response_header k v
  | call_replace_response_header k v => replace_response_header k v
  | call_remove_response_header k => remove_response_header k
  | call_select_subprotocol v => select_subprotocol v
  | call_select_extension v => select_extension v
  | call_set_body v => set_body v
  | call_throw e => throw e
  end.

Fixpoint run_calls (l : list api_call) : M unit :=
  match l with
  | [] => ret tt
  | a :: l' => run_call a ;; run_calls l'
  end.

(** The methods of [server::handler] the handshake invokes.  [http] is
    optional in the source and defaults to an empty body. *)
Record handler := mk_handler {
  validate : connection -> list api_call;
  on_open : connection -> list api_call;
  http : connection -> list api_call
}.

(** Invoke a handler method: the invocation is recorded, then its body runs. *)
Definition invoke (ev : event) (method : connection -> list api_call) : M unit :=
  emit ev ;;
  body <- gets method ;;
  run_calls body.

(** What the role asks of the endpoint it belongs to. *)
Record endpoint := mk_endpoint {
  is_secure : bool;
  get_handler : handler
}.

(** ** The handshake *)

Section Handshake.
(** [m_endpoint]. *)
Variable m_endpoint : endpoint.
(** [m_request.parse_complete(stream)]: the external HTTP parser reads the
    request off the buffer into [m_request] and says whether it is a
    valid request; what it did not read stays in the buffer. *)
Variable parse_complete : request -> string -> bool * request * string.
(** [new processor::hybi<blank_rng>(false, m_rng)]. *)
Variable hybi : processor.
(** The parameters of the uri constructors. *)
Variable default_port : bool -> N.
Variable get_port_from_string : string -> option N.

Definition parse_request : M bool :=
  fun c =>
    let '(valid, r, rest) := parse_complete (m_request c) (buffer c) in
    Normal valid (with_buffer (with_request c r) rest).

Definition write_response : M unit :=
  on_response (fun r => Response.set_version r "HTTP/1.1") ;;
  code <- gets (fun c => status_code (m_response c)) ;;
  (if code =? SWITCHING_PROTOCOLS then
     (* websocket response *)
     p <- deref m_processor ;;
     modify (fun c => with_response c (handshake_response p (m_request c) (m_response c))) ;;
     subprotocol <- gets m_subprotocol ;;
     if negb (String.eqb subprotocol "") then
       on_response (fun r => Response.replace_header r "Sec-WebSocket-Protocol" subprotocol)
     else ret tt
     (* TODO: return negotiated extensions *)
   else
     (* HTTP response *)
     ret tt) ;;
  on_response (fun r => Response.replace_header r "Server" "WebSocket++/2011-11-18") ;;
  raw <- gets m_response ;;
  log (alog_response raw) ;;
  emit (ev_async_write raw).

Definition handle_read_request (error : bool) : M unit :=
  if error then
    log (elog "Error reading HTTP request.") ;;
    terminate false
  else
    try_catch
      (valid <- parse_request ;;
       (if negb valid then
          (* not a valid HTTP request/response *)
          throw (http_exception "Recieved invalid HTTP Request" BAD_REQUEST "" "")
        else ret tt) ;;
       raw <- gets m_request ;;
       log (alog_request raw) ;;
       h <- gets (fun c => request_header (m_request c) "Upgrade") ;;
       if ifind_first h "websocket" then
         h <- gets (fun c => request_header (m_request c) "Sec-WebSocket-Version") ;;
         (if String.eqb h "" then
            (* websocket upgrade is present but version is not. assume hybi00 *)
            modify (fun c => with_version c 0)
          else
            modify (fun c => with_version c (atoi h)) ;;
            v <- gets m_version ;;
            if v =? 0 then
              throw (http_exception "Unable to determine connection version" BAD_REQUEST "" "")
            else ret tt) ;;
         (* create a websocket processor *)
         v <- gets m_version ;;
         (if v =? 0 then
            on_response (fun r => Response.add_header r "Sec-WebSocket-Version" "13, 8, 7") ;;
            throw (http_exception "Unsupported WebSocket version" BAD_REQUEST "" "")
          else if (v =? 7) || (v =? 8) || (v =? 13) then
            modify (fun c => with_processor c (Some hybi))
          else
            on_response (fun r => Response.add_header r "Sec-WebSocket-Version" "13, 8, 7") ;;
            throw (http_exception "Unsupported WebSocket version" BAD_REQUEST "" "")) ;;
         p <- deref m_processor ;;
         emit ev_validate_handshake ;;
         req <- gets m_request ;;
         call (validate_handshake p req) ;;
         p <- deref m_processor ;;
         req <- gets m_request ;;
         modify (fun c => with_origin c (get_origin p req)) ;;
         p <- deref m_processor ;;
         req <- gets m_request ;;
         u <- call (get_uri p req) ;;
         modify (fun c => with_uri c u) ;;
         invoke ev_validate (validate (get_handler m_endpoint)) ;;
         on_response (fun r => Response.set_status r SWITCHING_PROTOCOLS)
       else
         (* continue as HTTP? *)
         invoke ev_http (http (get_handler m_endpoint)) ;;
         modify (fun c => with_origin c (request_header (m_request c) "Origin")) ;;
         (* Set URI *)
         h <- gets (fun c => request_header (m_request c) "Host") ;;
         target <- gets (fun c => request_uri (m_request c)) ;;
         match find h ":" with
         | None =>
             u <- call (uri3 default_port (is_secure m_endpoint) h target) ;;
             modify (fun c => with_uri c (Some u))
         | Some found =>
             u <- call (uri4 get_port_from_string (is_secure m_endpoint)
                          (substr h 0 (Some found)) (substr h (found + 1) None) target) ;;
             modify (fun c => with_uri c (Some u))
         end ;;
         on_response (fun r => Response.set_status r OK))
      (fun e =>
         match e with
         | http_exception msg code error_msg body =>
             Some (log (elog msg) ;;
                   on_response (fun r => Response.set_status_msg r code error_msg) ;;
                   on_response (fun r => Response.set_body r body))
         | uri_exception msg =>
             (* there was some error building the uri *)
             Some (log (elog msg) ;;
                   on_response (fun r => Response.set_status r BAD_REQUEST))
         | invalid_argument _ => None
         end) ;;
    write_response.

Definition log_open_result : M unit :=
  version <- gets m_version ;;
  user_agent <- gets (fun c => request_header (m_request c) "User-Agent") ;;
  u <- deref m_uri ;;
  code <- gets (fun c => status_code (m_response c)) ;;
  log (alog_connect (negb (version =? -1)) version
         (if String.eqb user_agent "" then "NULL" else user_agent)
         (get_resource u) code).

Definition handle_write_response (error : bool) : M unit :=
  if error then
    log (elog "Network error writing handshake respons.") ;;
    terminate false
  else
    log_open_result ;;
    code <- gets (fun c => status_code (m_response c)) ;;
    if negb (code =? SWITCHING_PROTOCOLS) then
      version <- gets m_version ;;
      (if version =? -1 then
         (* if this was not a websocket connection, we have written
            the expected response and the connection can be closed. *)
         ret tt
       else
         (* this was a websocket connection that ended in an error *)
         log (elog "Handshake ended with HTTP error: ")) ;;
      terminate true
    else
      modify (fun c => with_state c OPEN) ;;
      invoke ev_on_open (on_open (get_handler m_endpoint)) ;;
      handle_read_frame.

(** The whole handshake of one connection.  [handle_read_request] hands
    the response to [async_write] exactly when the read completed without
    error and no exception escaped; the completion handler of that write
    is [handle_write_response]. *)
Definition handshake (read_error write_error : bool) : M unit :=
  handle_read_request read_error ;;
  if read_error then ret tt else handle_write_response write_error.
End Handshake.

(** ** Reading outcomes *)

(** The connection an outcome leaves behind. *)
Definition final {A} (r : result A) : connection :=
  match r with
  | Normal _ c => c
  | Thrown _ c => c
  | Undefined c => c
  end.





(** [c] with the three members the public interface can write replaced. *)
Definition renegotiated (c : connection) (r : response) (s : string) (l : list string)
  : connection :=
  with_extensions (with_subprotocol (with_response c r) s) l.

(** The request asks for an upgrade to a version of the protocol the server
    speaks: what [handle_read_request] tests before it creates a processor. *)
Definition requests_supported_version (r : request) : bool :=
  ifind_first (request_header r "Upgrade") "websocket" &&
  let v := atoi (request_header r "Sec-WebSocket-Version") in
  (v =? 7) || (v =? 8) || (v =? 13).

(** Is the call one of the two setters? *)
Definition is_setter (a : api_call) : bool :=
  match a with
  | call_select_subprotocol _ | call_select_extension _ => true
  | _ => false
  end.


(** The negotiated version is one the server speaks. *)
Definition supported_version (v : Z) : Prop := v = 7 \/ v = 8 \/ v = 13.

(** The connection as the [http] method of the handler finds it: the
    request [r] parsed, [rest] left in the buffer, the request logged and
    the invocation recorded. *)
Definition at_http (c : connection) (r : request) (rest : string) : connection :=
  with_events (with_buffer (with_request c r) rest)
    (events c ++ [ev_log (alog_request r); ev_http]).

(** ** Sample collaborators

    Small stand-ins for the external parts, used to run the handshake on
    concrete requests. *)
Module Sample.

(** A parser that has already decided: it yields [r] and the verdict
    [valid], and consumes the buffer. *)
Definition parser (valid : bool) (r : request) : request -> string -> bool * request * string :=
  fun _ _ => (valid, r, "").

Definition default_port (secure : bool) : N := if secure then 443%N else 80%N.

Fixpoint all_digits (s : string) : bool :=
  match s with
  | String c r => is_digit c && all_digits r
  | EmptyString => true
  end.

(** A decimal port number between 1 and 65535. *)
Definition get_port_from_string (s : string) : option N :=
  if all_digits s then
    let p := digits_value 0 s in
    if (0 <? p) && (p <=? 65535) then Some (Z.to_N p) else None
  else None.

(** A processor that accepts every handshake. *)
Definition hybi : processor :=
  mk_processor
    (fun _ => returned tt)
    (fun req => request_header req "Origin")
    (fun req => returned (Some (mk_uri false (request_header req "Host") 80 (request_uri req))))
    (fun _ resp => Response.add_header
                     (Response.add_header resp "Upgrade" "websocket")
                     "Connection" "Upgrade").

(** A handler whose methods do nothing. *)
Definition quiet : handler := mk_handler (fun _ => []) (fun _ => []) (fun _ => []).

Definition plain : endpoint := mk_endpoint false quiet.

Definition upgrade_request (version : string) : request :=
  mk_request "/chat"
    (<[header_key "Sec-WebSocket-Version" := version]>
       (<[header_key "Upgrade" := "websocket"]>
          (<[header_key "Host" := "example.com"]> ∅))).

(** An upgrade request without the version header. *)
Definition upgrade_request_no_version : request :=
  mk_request "/chat"
    (<[header_key "Upgrade" := "websocket"]> (<[header_key "Host" := "example.com"]> ∅)).

Definition http_request (host : string) : request :=
  mk_request "/chat" (<[header_key "Host" := host]> ∅).

(** An open connection to which the client had proposed the subprotocol
    chat and the extension deflate, none selected. *)
Definition open_connection : connection :=
  mk_connection 13 (Some (mk_uri false "example.com" 80 "/chat")) "" ["chat"] ["deflate"]
    "" [] (upgrade_request "13") (Response.set_status response_init SWITCHING_PROTOCOLS)
    OPEN (Some hybi) "" [].

End Sample.

(** ** The accessors of the connection *)

(** Conversion of an [int] to [unsigned int]: modulo [2 ^ 32]. *)
Definition to_unsigned (z : Z) : Z := z mod 2 ^ 32.

(** The [const] members of the public interface.  [get_version] returns
    [unsigned int]; the four uri accessors dereference [m_uri]. *)
Module Accessors.

Definition get_version (c : connection) : Z := to_unsigned (m_version c).

Definition get_request_header (key : string) (c : connection) : string :=
  request_header (m_request c) key.

Definition get_origin (c : connection) : string := m_origin c.

Definition get_subprotocols (c : connection) : list string := m_requested_subprotocols c.

Definition get_extensions (c : connection) : list string := m_requested_extensions c.

Definition get_resource : M string := u <- deref m_uri ;; ret (get_resource u).

Definition get_port : M N := u <- deref m_uri ;; ret (get_port u).

Definition get_host : M string := u <- deref m_uri ;; ret (get_host u).

Definition get_secure : M bool := u <- deref m_uri ;; ret (get_secure u).

End Accessors.

(** ** The listener

    [server::listen], [start_accept] and [handle_accept].  Connections are
    numbered in the order [create_connection] makes them.  The acceptor
    holds at most one [async_accept]; [io_service.run()] delivers its
    completion to [handle_accept], with the error flag of the accept. *)
Inductive server_event :=
| sv_port (port : Z)
| sv_open
| sv_reuse_address
| sv_bind
| sv_listen
| sv_create_connection (con : nat)
| sv_async_accept (con : nat)
| sv_start (con : nat)
| sv_elog (msg : string)
| sv_alog (msg : string).

Record server := mk_server {
  created : nat;
  pending : option nat;
  trace : list server_event
}.

Definition server_init : server := mk_server 0 None [].

Definition server_emit (s : server) (e : server_event) : server :=
  mk_server (created s) (pending s) (trace s ++ [e]).

(** [start_accept] creates a new connection and begins an [async_accept] on
    it. *)
Definition start_accept (s : server) : server :=
  let con := created s in
  mk_server (S con) (Some con)
    (trace s ++ [sv_create_connection con; sv_async_accept con]).

Definition handle_accept (con : nat) (error : bool) (s : server) : server :=
  start_accept
    (if error then server_emit s (sv_elog "async_accept returned error")
     else server_emit s (sv_start con)).

(** [m_io_service.run()] on the accepts that complete, each with its error
    flag: the pending [async_accept] completes and its handler runs. *)
Fixpoint io_service_run (completions : list bool) (s : server) : server :=
  match completions with
  | [] => s
  | error :: rest =>
      match pending s with
      | Some con => io_service_run rest (handle_accept con error (mk_server (created s) None (trace s)))
      | None => s
      end
  end.

Definition listen (port : Z) (completions : list bool) (s : server) : server :=
  let s := server_emit s (sv_port port) in
  let s := server_emit s sv_open in
  let s := server_emit s sv_reuse_address in
  let s := server_emit s sv_bind in
  let s := server_emit s sv_listen in
  let s := start_accept s in
  let s := server_emit s (sv_alog "role::server listening on port") in
  io_service_run completions s.

(** The connections [start()] was called on, in order. *)
Fixpoint started (l : list server_event) : list nat :=
  match l with
  | sv_start con :: l' => con :: started l'
  | _ :: l' => started l'
  | [] => []
  end.

(** The accept errors that were logged. *)
Fixpoint accept_errors (l : list server_event) : nat :=
  match l with
  | sv_elog _ :: l' => S (accept_errors l')
  | _ :: l' => accept_errors l'
  | [] => O
  end.

(** The connections whose accept completed without error, the first one
    being [con]. *)
Fixpoint accepted_from (con : nat) (completions : list bool) : list nat :=
  match completions with
  | [] => []
  | error :: rest =>
      if error then accepted_from (S con) rest else con :: accepted_from (S con) rest
  end.

(** ** Reading traces *)

(** The responses handed to [async_write], in order. *)
Fixpoint writes (l : list event) : list response :=
  match l with
  | ev_async_write raw :: l' => raw :: writes l'
  | _ :: l' => writes l'
  | [] => []
  end.

(** The calls of [terminate], each with its argument. *)
Fixpoint terminations (l : list event) : list bool :=
  match l with
  | ev_terminate failed_by_me :: l' => failed_by_me :: terminations l'
  | _ :: l' => terminations l'
  | [] => []
  end.

(** The invocations of handler methods, in order. *)
Fixpoint invocations (l : list event) : list event :=
  match l with
  | ev_validate :: l' => ev_validate :: invocations l'
  | ev_http :: l' => ev_http :: invocations l'
  | ev_on_open :: l' => ev_on_open :: invocations l'
  | _ :: l' => invocations l'
  | [] => []
  end.

(** What the data model asks of the negotiated members: the selected
    subprotocol is empty or one the client requested, and every accepted
    extension is one the client requested. *)
Definition negotiation_valid (c : connection) : Prop :=
  (m_subprotocol c = "" \/ In (m_subprotocol c) (m_requested_subprotocols c)) /\
  Forall (fun x => In x (m_requested_extensions c)) (m_extensions c).

(** The connection as the [validate] method of the handler finds it: the
    request [r] parsed, the version read off it, the processor [p] created,
    its origin and uri [u] stored, and the invocation recorded. *)
Definition at_validate (c : connection) (r : request) (rest : string) (p : processor)
  (u : option uri) : connection :=
  with_events
    (with_uri
       (with_origin
          (with_processor
             (with_version (with_buffer (with_request c r) rest)
                (atoi (request_header r "Sec-WebSocket-Version")))
             (Some p))
          (get_origin p r))
       u)
    (events c ++ [ev_log (alog_request r); ev_validate_handshake; ev_validate]).

(** The connection as the [on_open] method of the handler finds it, after
    [log_open_result] wrote [line]. *)
Definition at_on_open (c : connection) (line : log_entry) : connection :=
  with_events (with_state c OPEN) (events c ++ [ev_log line; ev_on_open]).

(** The connect line of [log_open_result] on a connection with uri [u]. *)
Definition connect_line (c : connection) (u : uri) : log_entry :=
  alog_connect (negb (m_version c =? -1)) (m_version c)
    (if String.eqb (request_header (m_request c) "User-Agent") "" then "NULL"
     else request_header (m_request c) "User-Agent")
    (get_resource u) (status_code (m_response c)).

(** The response with the Server header [write_response] gives it. *)
Definition served (raw : response) : response :=
  Response.replace_header raw "Server" "WebSocket++/2011-11-18".

(** The connection once [write_response] has logged [raw] and handed it to
    [async_write]. *)
Definition written (c : connection) (raw : response) : connection :=
  with_events (with_response c raw)
    (events c ++ [ev_log (alog_response raw); ev_async_write raw]).

(** The connection once [handle_write_response] has closed it: the connect
    line, the error line of a failed upgrade, and [terminate(true)]. *)
Definition closed (c : connection) (u : uri) : connection :=
  with_state
    (with_events c
       (events c ++ [ev_log (connect_line c u)] ++
        (if m_version c =? -1 then []
         else [ev_log (elog "Handshake ended with HTTP error: ")]) ++
        [ev_terminate true]))
    CLOSED.

(** The uri [handle_read_request] builds on the plain-HTTP path from the
    Host header [h] and the request target, or [None] when the uri
    constructor throws. *)
Definition uri_of_host (default_port : bool -> N) (get_port_from_string : string -> option N)
  (secure : bool) (h target : string) : option uri :=
  match find h ":" with
  | None => Some (mk_uri secure h (default_port secure) target)
  | Some found =>
      match get_port_from_string (substr h (found + 1) None) with
      | Some p => Some (mk_uri secure (substr h 0 (Some found)) p target)
      | None => None
      end
  end.

(** More sample collaborators. *)
Module Scenario.

(** A handler whose [validate] and [http] set the body of the response. *)
Definition with_body (value : string) : handler :=
  mk_handler (fun _ => [call_set_body value]) (fun _ => []) (fun _ => [call_set_body value]).


(** A handler whose [http] throws an exception that carries status 101. *)
Definition switching : handler :=
  mk_handler (fun _ => []) (fun _ => [])
    (fun _ => [call_throw (http_exception "switch" SWITCHING_PROTOCOLS "" "")]).

(** A handler that tries to select a subprotocol and an extension. *)
Definition selecting : handler :=
  mk_handler (fun _ => [call_select_subprotocol "chat"; call_select_extension "deflate"])
    (fun _ => []) (fun _ => []).

(** An endpoint without TLS that hands its connections to [h]. *)
Definition endpoint_with (h : handler) : endpoint := mk_endpoint false h.

(** [handle_read_request], and the whole handshake, of a connection of
    such an endpoint when the read succeeds and the parser accepts [r]. *)
Definition reads (h : handler) (r : request) : M unit :=
  handle_read_request (endpoint_with h) (Sample.parser true r) Sample.hybi
    Sample.default_port Sample.get_port_from_string false.

Definition shakes (h : handler) (r : request) : M unit :=
  handshake (endpoint_with h) (Sample.parser true r) Sample.hybi
    Sample.default_port Sample.get_port_from_string false false.

End Scenario.

(** * Properties *)

(** ** Searching the requested lists *)

Lemma not_found_false (value : string) (v : list string) :
  not_found value v = false <-> In value v.
Proof.
  unfold not_found. rewrite negb_false_iff, existsb_exists. split.
  - intros (x & Hin & Heq). apply String.eqb_eq in Heq. now subst.
  - intros Hin. exists value. split; [assumption | apply String.eqb_refl].
Qed.

Lemma not_found_true (value : string) (v : list string) :
  not_found value v = true <-> ~ In value v.
Proof.
  rewrite <- not_found_false. destruct (not_found value v); split; congruence.
Qed.

Lemma eqb_empty_false (value : string) : value <> "" -> String.eqb value "" = false.
Proof. intros H. now apply String.eqb_neq. Qed.

(** ** The negotiation setters *)

(** C3: [select_subprotocol("")] always succeeds and clears the selection;
    a non-empty value that is one of the requested subprotocols becomes the
    selection; any other non-empty value throws [std::invalid_argument] and
    leaves the whole connection as it was. *)
Theorem select_subprotocol_spec (c : connection) (v : string) :
  select_subprotocol "" c = Normal tt (with_subprotocol c "") /\
  (v <> "" -> In v (m_requested_subprotocols c) ->
   select_subprotocol v c = Normal tt (with_subprotocol c v)) /\
  (v <> "" -> ~ In v (m_requested_subprotocols c) ->
   exists msg, select_subprotocol v c = Thrown (invalid_argument msg) c).
Proof.
  unfold select_subprotocol, bind, and_then, gets, modify, throw, ret.
  split; [reflexivity | split].
  - intros Hne Hin. apply not_found_false in Hin.
    rewrite Hin, andb_false_r. reflexivity.
  - intros Hne Hin. apply not_found_true in Hin.
    rewrite Hin, eqb_empty_false by assumption. simpl. eauto.
Qed.

(** C4: [select_extension("")] returns without touching the connection; a
    non-empty value that was not requested throws [std::invalid_argument]
    and changes nothing; a requested value is appended to the accepted
    extensions, and a second call appends it again. *)
Theorem select_extension_spec (c : connection) (v : string) :
  select_extension "" c = Normal tt c /\
  (v <> "" -> ~ In v (m_requested_extensions c) ->
   exists msg, select_extension v c = Thrown (invalid_argument msg) c) /\
  (v <> "" -> In v (m_requested_extensions c) ->
   select_extension v c = Normal tt (with_extensions c (m_extensions c ++ [v])) /\
   (select_extension v ;; select_extension v) c =
     Normal tt (with_extensions c (m_extensions c ++ [v; v]))).
Proof.
  split; [reflexivity | split].
  - intros Hne Hin. apply not_found_true in Hin.
    unfold select_extension, bind, and_then, gets, modify, throw, ret.
    rewrite eqb_empty_false, Hin by assumption. eauto.
  - intros Hne Hin. apply not_found_false in Hin.
    assert (Hone : forall d, m_requested_extensions d = m_requested_extensions c ->
              select_extension v d = Normal tt (with_extensions d (m_extensions d ++ [v]))).
    { intros d Hd. unfold select_extension, bind, and_then, gets, modify, throw, ret.
      rewrite eqb_empty_false, Hd, Hin by assumption. reflexivity. }
    split; [now apply Hone |].
    unfold bind, and_then. rewrite (Hone c eq_refl), Hone by reflexivity.
    unfold with_extensions; simpl. now rewrite <- app_assoc.
Qed.

Lemma select_subprotocol_spec_witness :
  select_subprotocol "chat" Sample.open_connection =
    Normal tt (with_subprotocol Sample.open_connection "chat") /\
  exists msg, select_subprotocol "foo" Sample.open_connection =
    Thrown (invalid_argument msg) Sample.open_connection.
Proof.
  split.
  - apply (select_subprotocol_spec Sample.open_connection "chat").
    + discriminate.
    + simpl. left. reflexivity.
  - apply (select_subprotocol_spec Sample.open_connection "foo").
    + discriminate.
    + simpl. intros [H | []]. discriminate H.
Defined.

Lemma select_extension_spec_witness :
  (select_extension "deflate" ;; select_extension "deflate") Sample.open_connection =
    Normal tt (with_extensions Sample.open_connection ["deflate"; "deflate"]) /\
  exists msg, select_extension "lz4" Sample.open_connection =
    Thrown (invalid_argument msg) Sample.open_connection.
Proof.
  split.
  - apply (select_extension_spec Sample.open_connection "deflate").
    + discriminate.
    + simpl. left. reflexivity.
  - apply (select_extension_spec Sample.open_connection "lz4").
    + discriminate.
    + simpl. intros [H | []]. discriminate H.
Defined.

(** ** What the public interface can change *)

Lemma renegotiated_id (c : connection) :
  renegotiated c (m_response c) (m_subprotocol c) (m_extensions c) = c.
Proof. destruct c; reflexivity. Qed.

Lemma renegotiated_twice (c : connection) r s l r' s' l' :
  renegotiated (renegotiated c r s l) r' s' l' = renegotiated c r' s' l'.
Proof. reflexivity. Qed.

(** A call of the public interface returns or throws, and the connection
    differs from [c] in the response and the negotiated members at most; a
    call other than the setters leaves the negotiated members too. *)
Lemma run_call_cases (a : api_call) (c : connection) :
  exists r s x,
    (run_call a c = Normal tt (renegotiated c r s x) \/
     exists e, run_call a c = Thrown e (renegotiated c r s x)) /\
    (is_setter a = false -> s = m_subprotocol c /\ x = m_extensions c).
Proof.
  assert (Hsame : forall (o : result unit) (b : bool),
            o = Normal tt c \/ (exists e, o = Thrown e c) ->
            exists r s x,
              (o = Normal tt (renegotiated c r s x) \/
               exists e, o = Thrown e (renegotiated c r s x)) /\
              (b = false -> s = m_subprotocol c /\ x = m_extensions c)).
  { intros o b H. exists (m_response c), (m_subprotocol c), (m_extensions c).
    rewrite renegotiated_id. split; [exact H | split; reflexivity]. }
  assert (Hresponse : forall (r : response) (b : bool),
            exists r' s x,
              (Normal tt (with_response c r) = Normal tt (renegotiated c r' s x) \/
               exists e, Normal tt (with_response c r) = Thrown e (renegotiated c r' s x)) /\
              (b = false -> s = m_subprotocol c /\ x = m_extensions c)).
  { intros r b. exists r, (m_subprotocol c), (m_extensions c).
    split; [left; destruct c; reflexivity | split; reflexivity]. }
  destruct a; simpl.
  - apply Hresponse.
  - apply Hresponse.
  - apply Hresponse.
  - unfold select_subprotocol, bind, and_then, gets, modify, throw, ret.
    destruct (negb (String.eqb value "") && not_found value (m_requested_subprotocols c)).
    + apply Hsame. right. eauto.
    + exists (m_response c), value, (m_extensions c).
      split; [left; destruct c; reflexivity | discriminate].
  - unfold select_extension, bind, and_then, gets, modify, throw, ret.
    destruct (String.eqb value ""); [apply Hsame; left; reflexivity |].
    destruct (not_found value (m_requested_extensions c)).
    + apply Hsame. right. eauto.
    + exists (m_response c), (m_subprotocol c), (m_extensions c ++ [value]).
      split; [left; destruct c; reflexivity | discriminate].
  - unfold set_body, bind, and_then, gets, modify, throw, ret.
    destruct (negb (m_version c =? -1)).
    + apply Hsame. right. eauto.
    + apply Hresponse.
  - apply Hsame. right. eauto.
Qed.

(** The same for the body of a handler method. *)
Lemma run_calls_cases (l : list api_call) (c : connection) :
  exists r s x,
    (run_calls l c = Normal tt (renegotiated c r s x) \/
     exists e, run_calls l c = Thrown e (renegotiated c r s x)) /\
    (Forall (fun a => is_setter a = false) l ->
     s = m_subprotocol c /\ x = m_extensions c).
Proof.
  revert c. induction l as [| a l IH]; intros c; simpl.
  - exists (m_response c), (m_subprotocol c), (m_extensions c).
    rewrite renegotiated_id. split; [left; reflexivity | split; reflexivity].
  - unfold bind, and_then.
    destruct (run_call_cases a c) as (r & s & x & [Hrun | [e Hrun]] & Hkeep); rewrite Hrun.
    + destruct (IH (renegotiated c r s x)) as (r' & s' & x' & Hrest & Hkeep').
      exists r', s', x'. rewrite renegotiated_twice in Hrest. split; [exact Hrest |].
      intros Hall. inversion Hall as [| ? ? Ha Hl]; subst.
      destruct (Hkeep Ha) as [-> ->]. destruct (Hkeep' Hl) as [-> ->].
      split; reflexivity.
    + exists r, s, x. split; [right; eauto |].
      intros Hall. inversion Hall as [| ? ? Ha Hl]; subst. exact (Hkeep Ha).
Qed.

(** ** Running the monad

    The equations by which a member function is run on a connection, one
    statement at a time.  Each is a rewrite rule: the code that has not been
    reached yet stays as it is written. *)

Section Run.
Context {A B : Type}.
Implicit Types (c : connection) (k : A -> M B) (e : exn).

Lemma run_ret (a : A) c : ret a c = Normal a c.
Proof. reflexivity. Qed.

Lemma run_gets (f : connection -> A) c : gets f c = Normal (f c) c.
Proof. reflexivity. Qed.

Lemma run_modify f c : modify f c = Normal tt (f c).
Proof. reflexivity. Qed.

Lemma run_throw e c : @throw A e c = Thrown e c.
Proof. reflexivity. Qed.

Lemma bind_ret (a : A) k c : bind (ret a) k c = k a c.
Proof. reflexivity. Qed.

Lemma bind_gets (f : connection -> A) k c : bind (gets f) k c = k (f c) c.
Proof. reflexivity. Qed.

Lemma bind_modify f (k : unit -> M B) c : bind (modify f) k c = k tt (f c).
Proof. reflexivity. Qed.

Lemma bind_throw e k c : bind (throw e) k c = Thrown e c.
Proof. reflexivity. Qed.

Lemma bind_assoc {C} (m : M C) (k' : C -> M A) k c :
  bind (bind m k') k c = bind m (fun x => bind (k' x) k) c.
Proof. unfold bind, and_then. destruct (m c); reflexivity. Qed.

Lemma bind_deref (p : connection -> option A) k c :
  bind (deref p) k c = match p c with Some a => k a c | None => Undefined c end.
Proof. unfold bind, and_then, deref. destruct (p c); reflexivity. Qed.

Lemma bind_call (r : returns A) k c :
  bind (call r) k c = match r with returned a => k a c | threw e => Thrown e c end.
Proof. destruct r; reflexivity. Qed.

Lemma bind_Normal (m : M A) k c a c' : m c = Normal a c' -> bind m k c = k a c'.
Proof. intros H. unfold bind, and_then. now rewrite H. Qed.

Lemma bind_Thrown (m : M A) k c e c' : m c = Thrown e c' -> bind m k c = Thrown e c'.
Proof. intros H. unfold bind, and_then. now rewrite H. Qed.

Lemma bind_Undefined (m : M A) k c c' : m c = Undefined c' -> bind m k c = Undefined c'.
Proof. intros H. unfold bind, and_then. now rewrite H. Qed.
End Run.

(** The same inside a [try] block, whose statements all have type [unit]. *)
Section Run_try.
Context {A : Type}.
Implicit Types (c : connection) (k : A -> M unit) (e : exn)
  (h : exn -> option (M unit)).

Lemma try_ret h c : try_catch (ret tt) h c = Normal tt c.
Proof. reflexivity. Qed.

Lemma try_modify f h c : try_catch (modify f) h c = Normal tt (f c).
Proof. reflexivity. Qed.

Lemma try_throw e h c : try_catch (throw e) h c = caught h e c.
Proof. reflexivity. Qed.

Lemma try_bind_ret (a : A) k h c : try_catch (bind (ret a) k) h c = try_catch (k a) h c.
Proof. reflexivity. Qed.

Lemma try_bind_gets (f : connection -> A) k h c :
  try_catch (bind (gets f) k) h c = try_catch (k (f c)) h c.
Proof. reflexivity. Qed.

Lemma try_bind_modify f (k : unit -> M unit) h c :
  try_catch (bind (modify f) k) h c = try_catch (k tt) h (f c).
Proof. reflexivity. Qed.

Lemma try_bind_throw e k h c : try_catch (bind (throw e) k) h c = caught h e c.
Proof. reflexivity. Qed.

Lemma try_bind_assoc {C} (m : M C) (k' : C -> M A) k h c :
  try_catch (bind (bind m k') k) h c = try_catch (bind m (fun x => bind (k' x) k)) h c.
Proof. unfold try_catch. now rewrite bind_assoc. Qed.

Lemma try_bind_deref (p : connection -> option A) k h c :
  try_catch (bind (deref p) k) h c =
  match p c with Some a => try_catch (k a) h c | None => Undefined c end.
Proof. unfold try_catch, bind, and_then, deref. destruct (p c); reflexivity. Qed.

Lemma try_bind_call (r : returns A) k h c :
  try_catch (bind (call r) k) h c =
  match r with returned a => try_catch (k a) h c | threw e => caught h e c end.
Proof. destruct r; reflexivity. Qed.

Lemma try_bind_Normal (m : M A) k h c a c' :
  m c = Normal a c' -> try_catch (bind m k) h c = try_catch (k a) h c'.
Proof. intros H. unfold try_catch, bind, and_then. now rewrite H. Qed.

Lemma try_bind_Thrown (m : M A) k h c e c' :
  m c = Thrown e c' -> try_catch (bind m k) h c = caught h e c'.
Proof. intros H. unfold try_catch, bind, and_then. now rewrite H. Qed.
End Run_try.

Lemma bind_try {B} body h (k : unit -> M B) c :
  bind (try_catch body h) k c = and_then (try_catch body h c) k.
Proof. reflexivity. Qed.

(** ** Splitting the Host header *)

Lemma find_app_colon (host port : string) (ch : ascii) :
  find host ch = None ->
  find (host +:+ String ch port) ch = Some (String.length host).
Proof.
  induction host as [| d host IH]; simpl; intros H.
  - now rewrite Ascii.eqb_refl.
  - destruct (Ascii.eqb d ch); [discriminate H |].
    destruct (find host ch); [discriminate H |].
    now rewrite IH.
Qed.

Lemma substr_to_app (host rest : string) :
  substr_to (host +:+ rest) (String.length host) = host.
Proof. induction host as [| d host IH]; simpl; [now destruct rest | now rewrite IH]. Qed.

Lemma substr_from_app (host port : string) (ch : ascii) :
  substr_from (host +:+ String ch port) (String.length host + 1) = port.
Proof. induction host as [| d host IH]; simpl; [reflexivity | exact IH]. Qed.

(** [find] returns the position of the first occurrence: the text before it
    is free of the character, and the character is there. *)
Lemma find_Some (s : string) (ch : ascii) (n : nat) :
  find s ch = Some n ->
  find (substr_to s n) ch = None /\
  s = substr_to s n +:+ String ch (substr_from s (n + 1)).
Proof.
  revert n. induction s as [| d s IH]; simpl; intros n H; [discriminate H |].
  destruct (Ascii.eqb_spec d ch) as [-> | Hne].
  - injection H as <-. simpl. split; reflexivity.
  - destruct (find s ch) as [i |] eqn:Hfind; [| discriminate H].
    injection H as <-. destruct (IH i eq_refl) as [Hnone Hsplit]. simpl.
    destruct (Ascii.eqb_spec d ch) as [? | _]; [contradiction |].
    rewrite Hnone. split; [reflexivity |]. rewrite Hsplit at 1. reflexivity.
Qed.

(** What [handle_read_request] passes to the uri constructor for a Host
    header with a colon: the text before the first colon, which has none,
    and the text after it. *)
Lemma substr_at_first (s : string) (ch : ascii) (found : nat) :
  find s ch = Some found ->
  s = substr s 0 (Some found) +:+ String ch (substr s (found + 1) None) /\
  find (substr s 0 (Some found)) ch = None.
Proof.
  intros H. destruct (find_Some s ch found H) as [Hnone Hsplit].
  unfold substr. cbn [substr_from]. split; assumption.
Qed.

(** ** The handshake *)

(** Two header names that differ beyond letter case. *)
Ltac distinct_keys := vm_compute; discriminate.

Lemma find_header_replace (r : response) (key val : string) :
  find_header (response_headers (Response.replace_header r key val)) key = Some val.
Proof. unfold find_header. simpl. now rewrite lookup_insert_eq. Qed.

Lemma find_header_replace_ne (r : response) (key key' val : string) :
  header_key key <> header_key key' ->
  find_header (response_headers (Response.replace_header r key val)) key' =
  find_header (response_headers r) key'.
Proof. intros H. unfold find_header. simpl. now rewrite lookup_insert_ne. Qed.

Lemma response_header_add_fresh (r : response) (key val : string) :
  response_header r key = "" ->
  response_header (Response.add_header r key val) key = val.
Proof.
  intros H. unfold Response.add_header. rewrite decide_True by assumption.
  unfold response_header, header, find_header. simpl. now rewrite lookup_insert_eq.
Qed.

Lemma response_header_replace (r : response) (key val : string) :
  response_header (Response.replace_header r key val) key = val.
Proof. unfold response_header, header. now rewrite find_header_replace. Qed.

Lemma response_header_replace_ne (r : response) (key key' val : string) :
  header_key key <> header_key key' ->
  response_header (Response.replace_header r key val) key' = response_header r key'.
Proof.
  intros H. unfold response_header, header. now rewrite find_header_replace_ne.
Qed.

(** The string functions and header lookups stay folded during evaluation. *)
#[local] Arguments ifind_first : simpl never.
#[local] Arguments atoi : simpl never.
#[local] Arguments request_header : simpl never.
#[local] Arguments response_header : simpl never.
#[local] Arguments find : simpl never.

(** Unfold the member functions down to the statements of the monad. *)
Ltac unfold_role :=
  unfold handshake, handle_read_request, handle_write_response, write_response,
    log_open_result, invoke, terminate, handle_read_frame, log, emit, on_response,
    uri3, uri4, substr.

Ltac unfold_handshake := unfold handshake.

(** Read the members of a connection that has been written to. *)
Ltac simpl_state :=
  cbn [m_version m_uri m_origin m_requested_subprotocols m_requested_extensions
       m_subprotocol m_extensions m_request m_response m_state m_processor buffer
       events with_version with_uri with_origin with_subprotocol with_extensions
       with_request with_response with_state with_processor with_buffer with_events
       renegotiated at_http and_then caught final
       status_code status_msg response_version response_headers response_body
       Response.set_headers Response.set_version Response.set_status
       Response.set_status_msg Response.set_body Response.replace_header
       Response.add_header Response.remove_header
       SWITCHING_PROTOCOLS OK BAD_REQUEST Z.eqb Pos.eqb negb andb orb].

Ltac run_statement :=
  first
    [ rewrite try_bind_assoc | rewrite try_bind_ret | rewrite try_bind_gets
    | rewrite try_bind_modify | rewrite try_bind_throw | rewrite try_bind_deref
    | rewrite try_bind_call | rewrite try_ret | rewrite try_modify | rewrite try_throw
    | rewrite bind_try
    | rewrite bind_assoc | rewrite bind_ret | rewrite bind_gets | rewrite bind_modify
    | rewrite bind_throw | rewrite bind_deref | rewrite bind_call
    | rewrite run_ret | rewrite run_gets | rewrite run_modify | rewrite run_throw ].

(** Run the statements at hand until one needs a case distinction. *)
Ltac run := simpl_state; repeat (run_statement; simpl_state).

Lemma parse_request_run parse_complete (c : connection) (valid : bool) (r : request)
  (rest : string) :
  parse_complete (m_request c) (buffer c) = (valid, r, rest) ->
  parse_request parse_complete c = Normal valid (with_buffer (with_request c r) rest).
Proof. intros H. unfold parse_request. now rewrite H. Qed.

(** One case distinction on whatever the run is waiting for. *)
Ltac run_case :=
  match goal with
  | |- context [match ?o with Some _ => returned _ | None => threw _ end] => destruct o eqn:?
  | |- context [try_catch (bind (if ?b then _ else _) _) _ _] => destruct b eqn:?
  | |- context [try_catch (if ?b then _ else _) _ _] => destruct b eqn:?
  | |- context [bind (if ?b then _ else _) _ _] => destruct b eqn:?
  | |- context [try_catch (bind (match ?o with Some _ => _ | None => _ end) _) _ _] =>
      destruct o eqn:?
  | |- context [try_catch (match ?o with Some _ => _ | None => _ end) _ _] => destruct o eqn:?
  | |- context [and_then (match ?r with returned _ => _ | threw _ => _ end) _] =>
      destruct r eqn:?
  | |- context [and_then (match ?o with Some _ => _ | None => _ end) _] => destruct o eqn:?
  | |- context [final (match ?o with Some _ => _ | None => _ end)] => destruct o eqn:?
  | |- context [match ?r with returned _ => _ | threw _ => _ end] => destruct r eqn:?
  | |- context [caught _ ?e _] => is_var e; destruct e
  | |- context [and_then ((if ?b then _ else _) _) _] => destruct b eqn:?
  | |- context [final ((if ?b then _ else _) _)] => destruct b eqn:?
  | |- context [try_catch (bind (run_calls ?l) ?k) ?h ?s] =>
      let H := fresh "Hhook" in
      destruct (run_calls_cases l s) as (? & ? & ? & [H | [? H]] & ?);
      [rewrite (try_bind_Normal _ _ _ _ _ _ H) | rewrite (try_bind_Thrown _ _ _ _ _ _ H)];
      clear H
  | |- context [bind (run_calls ?l) ?k ?s] =>
      let H := fresh "Hhook" in
      destruct (run_calls_cases l s) as (? & ? & ? & [H | [? H]] & ?);
      [rewrite (bind_Normal _ _ _ _ _ H) | rewrite (bind_Thrown _ _ _ _ _ H)];
      clear H
  | |- context [run_calls ?l ?s] =>
      let H := fresh "Hhook" in
      destruct (run_calls_cases l s) as (? & ? & ? & [H | [? H]] & ?);
      rewrite H; clear H
  end.

(** Run to the end, along every path. *)
Ltac run_all := run; repeat (run_case; run).

(** ** Writing the response *)



(** ** After the response is written *)

(** The connect line [log_open_result] writes for the uri [u]. *)
Lemma log_open_result_run (c : connection) (u : uri) :
  m_uri c = Some u ->
  exists line, log_open_result c = Normal tt (with_events c (events c ++ [ev_log line])).
Proof. intros Hu. unfold_role. run. rewrite Hu. run. eauto. Qed.

(** [log_open_result] dereferences [m_uri] whatever the connection went
    through: with a null [m_uri] nothing after it is reached. *)
Lemma log_open_result_null_uri (c : connection) :
  m_uri c = None -> log_open_result c = Undefined c.
Proof. intros Hu. unfold_role. run. rewrite Hu. reflexivity. Qed.

Lemma handle_write_response_null_uri (m_endpoint : endpoint) (c : connection) :
  m_uri c = None -> handle_write_response m_endpoint false c = Undefined c.
Proof.
  intros Hu. unfold handle_write_response.
  now rewrite (bind_Undefined _ _ _ _ (log_open_result_null_uri c Hu)).
Qed.

(** With the uri in place [handle_write_response] does what its branches
    say.  On status 101 the connection is OPEN and [on_open] is invoked
    once, and the frame loop follows when it returns.  On any other status
    the connection is terminated and [on_open] is not invoked. *)
Lemma handle_write_response_with_uri (m_endpoint : endpoint) (c : connection) (u : uri) :
  m_uri c = Some u ->
  let c' := final (handle_write_response m_endpoint false c) in
  (status_code (m_response c) = 101 ->
   m_state c' = OPEN /\
   exists line tail,
     events c' = events c ++ [ev_log line; ev_on_open] ++ tail /\
     (tail = [] \/ tail = [ev_handle_read_frame])) /\
  (status_code (m_response c) <> 101 ->
   handle_write_response m_endpoint false c = Normal tt c' /\
   m_state c' = CLOSED /\
   exists new,
     events c' = events c ++ new /\
     In (ev_terminate true) new /\ ~ In ev_on_open new).
Proof.
  intros Hu. unfold handle_write_response.
  destruct (log_open_result_run c u Hu) as [line Hline].
  rewrite (bind_Normal _ _ _ _ _ Hline). unfold_role. split.
  - intros Hcode. run. rewrite Hcode. run. run_case; run.
    + split; [reflexivity |]. exists line. eexists.
      split; [rewrite <- ?app_assoc; reflexivity |]. right. reflexivity.
    + split; [reflexivity |]. exists line. exists [].
      split; [rewrite <- ?app_assoc; reflexivity |]. left. reflexivity.
  - intros Hcode. run. apply Z.eqb_neq in Hcode.
    change 101 with SWITCHING_PROTOCOLS in Hcode. rewrite Hcode. run.
    destruct (m_version c =? -1); run.
    + split; [reflexivity |]. split; [reflexivity |]. eexists.
      split; [rewrite <- ?app_assoc; reflexivity |]. cbn [app In].
      split; [tauto | intuition discriminate].
    + split; [reflexivity |]. split; [reflexivity |]. eexists.
      split; [rewrite <- ?app_assoc; reflexivity |]. cbn [app In].
      split; [tauto | intuition discriminate].
Qed.

Section Handshake_properties.
Variable m_endpoint : endpoint.
Variable parse_complete : request -> string -> bool * request * string.
Variable hybi : processor.
Variable default_port : bool -> N.
Variable get_port_from_string : string -> option N.

Local Abbreviation handle_read_request :=
  (handle_read_request m_endpoint parse_complete hybi default_port get_port_from_string).
Local Abbreviation handshake :=
  (handshake m_endpoint parse_complete hybi default_port get_port_from_string).

(** C6: when the HTTP parser rejects the buffered input,
    [handle_read_request] hands a response with status 400 to
    [async_write], and neither [validate] nor [http] of the handler is
    invoked on the way.  The handler is reached only after a successful
    parse: whenever one of the two methods is invoked, the read had
    succeeded and the parser had accepted the request. *)
Theorem parse_failure_bad_request (c : connection) (error valid : bool) (r : request)
  (rest : string) :
  parse_complete (m_request c) (buffer c) = (valid, r, rest) ->
  (valid = false ->
   exists c' new,
     handle_read_request false c = Normal tt c' /\
     status_code (m_response c') = 400 /\
     events c' = events c ++ new /\
     In (ev_async_write (m_response c')) new /\
     ~ In ev_validate new /\ ~ In ev_http new) /\
  (forall new,
     events (final (handle_read_request error c)) = events c ++ new ->
     In ev_validate new \/ In ev_http new ->
     error = false /\ valid = true).
Proof.
  intros Hparse. split.
  - intros ->. unfold_role. rewrite bind_try.
    rewrite (try_bind_Normal _ _ _ _ _ _ (parse_request_run _ _ _ _ _ Hparse)).
    run. eexists. eexists. split; [reflexivity |]. simpl_state.
    split; [reflexivity |]. split; [rewrite <- !app_assoc; reflexivity |].
    cbn [app In]. intuition discriminate.
  - intros new. destruct error.
    + unfold_role. run. rewrite <- !app_assoc. intros Hnew.
      apply app_inv_head in Hnew. subst new. cbn [app In]. intuition discriminate.
    + destruct valid; [tauto |]. unfold_role. rewrite bind_try.
      rewrite (try_bind_Normal _ _ _ _ _ _ (parse_request_run _ _ _ _ _ Hparse)).
      run. rewrite <- !app_assoc. intros Hnew.
      apply app_inv_head in Hnew. subst new. cbn [app In]. intuition discriminate.
Qed.

(** C1, as the code has it: an upgrade request whose version header is
    absent, or does not convert to 7, 8 or 13, is answered with status 400.
    The response advertises [Sec-WebSocket-Version: 13, 8, 7] when the
    header is absent or converts to a non-zero integer; a header that is
    present and converts to 0 (not a number, or 0 itself) is rejected by the
    check that comes first, which adds no header. *)
Theorem unsupported_version_rejected (c : connection) (r : request) (rest : string) :
  parse_complete (m_request c) (buffer c) = (true, r, rest) ->
  ifind_first (request_header r "Upgrade") "websocket" = true ->
  response_header (m_response c) "Sec-WebSocket-Version" = "" ->
  let h := request_header r "Sec-WebSocket-Version" in
  h = "" \/ ~ supported_version (atoi h) ->
  exists c',
    handle_read_request false c = Normal tt c' /\
    status_code (m_response c') = 400 /\
    (h = "" \/ atoi h <> 0 ->
     response_header (m_response c') "Sec-WebSocket-Version" = "13, 8, 7") /\
    (h <> "" -> atoi h = 0 ->
     response_header (m_response c') "Sec-WebSocket-Version" = "").
Proof.
  intros Hparse Hupgrade Hfresh h Hversion. unfold_role. rewrite bind_try.
  rewrite (try_bind_Normal _ _ _ _ _ _ (parse_request_run _ _ _ _ _ Hparse)).
  run. rewrite Hupgrade. run. fold h.
  destruct (String.eqb_spec h "") as [Hempty | Hpresent].
  - (* no version header: hybi00 *)
    run. eexists. split; [reflexivity |]. simpl_state.
    split; [reflexivity |]. split; [| congruence].
    intros _. rewrite response_header_replace_ne by distinct_keys.
    now apply response_header_add_fresh.
  - run. destruct (Z.eqb_spec (atoi h) 0) as [Hzero | Hnonzero].
    + (* the header does not convert to a version *)
      run. eexists. split; [reflexivity |]. simpl_state.
      split; [reflexivity |]. split; [intros [? | ?]; congruence |].
      intros _ _. rewrite response_header_replace_ne by distinct_keys.
      exact Hfresh.
    + destruct Hversion as [? | Hout]; [congruence |].
      assert (Hnot : (atoi h =? 7) || (atoi h =? 8) || (atoi h =? 13) = false).
      { unfold supported_version in Hout.
        apply orb_false_intro; [apply orb_false_intro |]; apply Z.eqb_neq; tauto. }
      run. apply Z.eqb_neq in Hnonzero. rewrite Hnonzero, Hnot.
      apply Z.eqb_neq in Hnonzero.
      run. eexists. split; [reflexivity |]. simpl_state.
      split; [reflexivity |]. split; [| congruence].
      intros _. rewrite response_header_replace_ne by distinct_keys.
      now apply response_header_add_fresh.
Qed.

Lemma supported_version_tests (r : request) (h : string) :
  h = request_header r "Sec-WebSocket-Version" ->
  requests_supported_version r = true ->
  ifind_first (request_header r "Upgrade") "websocket" = true /\
  String.eqb h "" = false /\
  (atoi h =? 0) = false /\
  (atoi h =? 7) || (atoi h =? 8) || (atoi h =? 13) = true.
Proof.
  unfold requests_supported_version. intros -> H.
  apply andb_prop in H as [Hup Hset]. repeat split; try assumption.
  - destruct (String.eqb_spec (request_header r "Sec-WebSocket-Version") "") as [E | E];
      [| reflexivity].
    rewrite E in Hset. discriminate Hset.
  - destruct (Z.eqb_spec (atoi (request_header r "Sec-WebSocket-Version")) 0) as [E | E];
      [| reflexivity].
    rewrite E in Hset. discriminate Hset.
Qed.

(** A request for a supported version gets a processor, and the handshake
    goes on to [validate_handshake]. *)
Lemma supported_version_path (c : connection) (r : request) (rest : string) :
  parse_complete (m_request c) (buffer c) = (true, r, rest) ->
  requests_supported_version r = true ->
  let c' := final (handle_read_request false c) in
  m_processor c' = Some hybi /\
  exists tail,
    events c' = events c ++ [ev_log (alog_request r); ev_validate_handshake] ++ tail.
Proof.
  intros Hparse Hsupported.
  destruct (supported_version_tests r _ eq_refl Hsupported)
    as (Hup & Hpresent & Hnonzero & Hset).
  unfold_role. rewrite bind_try.
  rewrite (try_bind_Normal _ _ _ _ _ _ (parse_request_run _ _ _ _ _ Hparse)).
  clear Hparse.
  run. rewrite Hup. run. rewrite Hpresent. run. rewrite Hnonzero. run.
  rewrite Hnonzero, Hset.
  run_all; (split; [reflexivity |]); eexists; rewrite <- ?app_assoc; reflexivity.
Qed.

(** At the end of a run that did not set the processor. *)
Ltac processor_untouched :=
  split; [simpl_state; congruence |];
  eexists; split; [rewrite <- ?app_assoc; reflexivity |];
  cbn [app In]; intuition discriminate.

(** Every other request leaves the processor as it was, and
    [validate_handshake] is not reached. *)
Lemma unsupported_version_path (c : connection) (error valid : bool) (r : request)
  (rest : string) :
  parse_complete (m_request c) (buffer c) = (valid, r, rest) ->
  negb error && valid && requests_supported_version r = false ->
  let c' := final (handle_read_request error c) in
  m_processor c' = m_processor c /\
  exists new, events c' = events c ++ new /\ ~ In ev_validate_handshake new.
Proof.
  intros Hparse Hnot. unfold_role.
  destruct error; [run; processor_untouched |].
  rewrite bind_try.
  rewrite (try_bind_Normal _ _ _ _ _ _ (parse_request_run _ _ _ _ _ Hparse)).
  clear Hparse.
  destruct valid; [| run_all; processor_untouched].
  cbn [negb andb] in Hnot. unfold requests_supported_version in Hnot. run.
  destruct (ifind_first (request_header r "Upgrade") "websocket") eqn:Hup;
    [| (* the HTTP path *) run_all; processor_untouched].
  cbn [andb] in Hnot. run.
  destruct (String.eqb (request_header r "Sec-WebSocket-Version") "") eqn:Hpresent;
    [(* no version header *) run_all; processor_untouched |].
  run. destruct (atoi (request_header r "Sec-WebSocket-Version") =? 0) eqn:Hzero;
    [(* the header does not convert *) run_all; processor_untouched |].
  run. rewrite Hzero, Hnot. run_all; processor_untouched.
Qed.

(** C2: [handle_read_request] sets the processor exactly when the read
    succeeded, the request parsed and it asks for an upgrade to version 7, 8
    or 13; then [validate_handshake] is reached.  On every other path the
    processor stays as it was and [validate_handshake] is not reached.  So a
    connection that starts without a processor has one afterwards if and
    only if a supported version was negotiated. *)
Theorem processor_iff_supported_version (c : connection) (error valid : bool)
  (r : request) (rest : string) :
  parse_complete (m_request c) (buffer c) = (valid, r, rest) ->
  let negotiated := negb error && valid && requests_supported_version r in
  let c' := final (handle_read_request error c) in
  m_processor c' = (if negotiated then Some hybi else m_processor c) /\
  (exists new, events c' = events c ++ new /\
               (In ev_validate_handshake new <-> negotiated = true)) /\
  (m_processor c = None -> (m_processor c' <> None <-> negotiated = true)).
Proof.
  intros Hparse negotiated c'. subst c'.
  destruct negotiated eqn:Hneg; subst negotiated.
  - apply andb_prop in Hneg as [Hneg Hsupported]. apply andb_prop in Hneg as [Herr ->].
    apply negb_true_iff in Herr as ->.
    destruct (supported_version_path c r rest Hparse Hsupported) as (Hp & tail & Hev).
    split; [exact Hp | split].
    + eexists. split; [exact Hev |]. split; [reflexivity |].
      intros _. right. left. reflexivity.
    + intros _. rewrite Hp. split; [reflexivity | discriminate].
  - destruct (unsupported_version_path c error valid r rest Hparse Hneg)
      as (Hp & new & Hev & Hnew).
    split; [exact Hp | split].
    + exists new. split; [exact Hev |]. split; [tauto | discriminate].
    + intros Hnone. rewrite Hp, Hnone. split; [congruence | discriminate].
Qed.

(** C5: on the plain-HTTP path, once the [http] method of the handler has
    returned, the uri is built from the Host header.  Without a colon the
    header is the host and the port is the default port of the endpoint;
    with one, the host is the text before the first colon and the port is
    parsed from the text after it.  The resource is the request target, and
    the response status is 200. *)
Theorem http_request_uri (c : connection) (r : request) (rest : string) (c1 : connection) :
  parse_complete (m_request c) (buffer c) = (true, r, rest) ->
  ifind_first (request_header r "Upgrade") "websocket" = false ->
  run_calls (http (get_handler m_endpoint) (at_http c r rest)) (at_http c r rest)
    = Normal tt c1 ->
  let secure := is_secure m_endpoint in
  let h := request_header r "Host" in
  (find h ":" = None ->
   exists c',
     handle_read_request false c = Normal tt c' /\
     m_uri c' = Some (mk_uri secure h (default_port secure) (request_uri r)) /\
     status_code (m_response c') = 200) /\
  (forall host port p,
     h = host +:+ ":" +:+ port ->
     find host ":" = None ->
     get_port_from_string port = Some p ->
     exists c',
       handle_read_request false c = Normal tt c' /\
       m_uri c' = Some (mk_uri secure host p (request_uri r)) /\
       status_code (m_response c') = 200).
Proof.
  intros Hparse Hup Hhook secure h.
  destruct (run_calls_cases (http (get_handler m_endpoint) (at_http c r rest))
              (at_http c r rest)) as (resp & sp & ex & [H | [e H]] & _);
    rewrite H in Hhook; [clear Hhook | discriminate Hhook].
  unfold_role. rewrite bind_try.
  rewrite (try_bind_Normal _ _ _ _ _ _ (parse_request_run _ _ _ _ _ Hparse)).
  run. rewrite Hup. run.
  match goal with
  | |- context [try_catch (bind (run_calls (_ ?s)) _) _ ?s] =>
      replace s with (at_http c r rest)
        by (unfold at_http, with_events; simpl_state; now rewrite <- app_assoc)
  end.
  rewrite (try_bind_Normal _ _ _ _ _ _ H). run. fold h secure.
  split.
  - intros Hnone. rewrite Hnone. run.
    eexists. split; [reflexivity |]. simpl_state. split; reflexivity.
  - intros host port p Hsplit Hhost Hport.
    assert (Hfound : find h ":" = Some (String.length host)).
    { rewrite Hsplit. now apply find_app_colon. }
    rewrite Hfound, Hsplit.
    change (host +:+ ":" +:+ port) with (host +:+ String ":" port).
    cbn [substr_from]. rewrite substr_to_app, substr_from_app, Hport. run.
    eexists. split; [reflexivity |]. simpl_state. split; reflexivity.
Qed.

(** C10: on a fresh connection whose request the parser rejects,
    [handle_read_request] writes the 400 response with [m_uri] still null;
    when that write completes, [handle_write_response] calls
    [log_open_result], which dereferences [m_uri]. *)
Theorem null_uri_dereferenced (buf : string) (r : request) (rest : string) :
  parse_complete request_init buf = (false, r, rest) ->
  exists c',
    handle_read_request false (connection_init buf) = Normal tt c' /\
    m_uri c' = None /\
    status_code (m_response c') = 400 /\
    log_open_result c' = Undefined c' /\
    handshake false false (connection_init buf) = Undefined c'.
Proof.
  intros Hparse.
  assert (Hread : exists c',
            handle_read_request false (connection_init buf) = Normal tt c' /\
            m_uri c' = None /\ status_code (m_response c') = 400).
  { unfold_role. rewrite bind_try.
    rewrite (try_bind_Normal _ _ _ _ _ _
               (parse_request_run parse_complete (connection_init buf) _ _ _ Hparse)).
    run. eexists. split; [reflexivity |]. simpl_state. split; reflexivity. }
  destruct Hread as (c' & Hread & Huri & Hcode). exists c'.
  split; [exact Hread |]. split; [exact Huri |]. split; [exact Hcode |].
  split; [now apply log_open_result_null_uri |].
  unfold_handshake. rewrite (bind_Normal _ _ _ _ _ Hread).
  now apply handle_write_response_null_uri.
Qed.
(** *** Who writes the negotiated members *)








End Handshake_properties.


(** ** The handshake on sample requests *)

(** Version 99, and no version header at all. *)
Lemma unsupported_version_rejected_witness :
  (exists c',
     handle_read_request Sample.plain (Sample.parser true (Sample.upgrade_request "99"))
       Sample.hybi Sample.default_port Sample.get_port_from_string false
       (connection_init "") = Normal tt c' /\
     status_code (m_response c') = 400 /\
     response_header (m_response c') "Sec-WebSocket-Version" = "13, 8, 7") /\
  (exists c',
     handle_read_request Sample.plain (Sample.parser true Sample.upgrade_request_no_version)
       Sample.hybi Sample.default_port Sample.get_port_from_string false
       (connection_init "") = Normal tt c' /\
     status_code (m_response c') = 400 /\
     response_header (m_response c') "Sec-WebSocket-Version" = "13, 8, 7").
Proof.
  split.
  - destruct (unsupported_version_rejected Sample.plain
                (Sample.parser true (Sample.upgrade_request "99"))
                Sample.hybi Sample.default_port Sample.get_port_from_string
                (connection_init "") (Sample.upgrade_request "99") "")
      as (c' & Hrun & Hstatus & Hadvertised & _).
    + reflexivity.
    + vm_compute. reflexivity.
    + vm_compute. reflexivity.
    + right. vm_compute. intros [H | [H | H]]; discriminate H.
    + exists c'. split; [exact Hrun |]. split; [exact Hstatus |].
      apply Hadvertised. right. vm_compute. discriminate.
  - destruct (unsupported_version_rejected Sample.plain
                (Sample.parser true Sample.upgrade_request_no_version)
                Sample.hybi Sample.default_port Sample.get_port_from_string
                (connection_init "") Sample.upgrade_request_no_version "")
      as (c' & Hrun & Hstatus & Hadvertised & _).
    + reflexivity.
    + vm_compute. reflexivity.
    + vm_compute. reflexivity.
    + left. vm_compute. reflexivity.
    + exists c'. split; [exact Hrun |]. split; [exact Hstatus |].
      apply Hadvertised. left. vm_compute. reflexivity.
Defined.

(** A version header that is not a number: the response is 400, and it does
    not advertise the supported versions. *)
Lemma version_advertisement_counterexample :
  ifind_first (request_header (Sample.upgrade_request "abc") "Upgrade") "websocket" = true /\
  ~ supported_version (atoi (request_header (Sample.upgrade_request "abc")
                               "Sec-WebSocket-Version")) /\
  ~ exists c',
      handle_read_request Sample.plain (Sample.parser true (Sample.upgrade_request "abc"))
        Sample.hybi Sample.default_port Sample.get_port_from_string false
        (connection_init "") = Normal tt c' /\
      status_code (m_response c') = 400 /\
      response_header (m_response c') "Sec-WebSocket-Version" = "13, 8, 7".
Proof.
  split; [vm_compute; reflexivity |]. split.
  - vm_compute. intros [H | [H | H]]; discriminate H.
  - intros (c' & Hrun & _ & Hheader). vm_compute in Hrun.
    injection Hrun as <-. vm_compute in Hheader. discriminate Hheader.
Qed.

Lemma processor_iff_supported_version_witness :
  m_processor
    (final (handle_read_request Sample.plain
              (Sample.parser true (Sample.upgrade_request "13"))
              Sample.hybi Sample.default_port Sample.get_port_from_string false
              (connection_init ""))) <> None /\
  m_processor
    (final (handle_read_request Sample.plain
              (Sample.parser true (Sample.http_request "example.com"))
              Sample.hybi Sample.default_port Sample.get_port_from_string false
              (connection_init ""))) = None.
Proof.
  split.
  - apply (processor_iff_supported_version Sample.plain
             (Sample.parser true (Sample.upgrade_request "13"))
             Sample.hybi Sample.default_port Sample.get_port_from_string
             (connection_init "") false true (Sample.upgrade_request "13") "").
    + reflexivity.
    + reflexivity.
    + vm_compute. reflexivity.
  - destruct (processor_iff_supported_version Sample.plain
             (Sample.parser true (Sample.http_request "example.com"))
             Sample.hybi Sample.default_port Sample.get_port_from_string
             (connection_init "") false true (Sample.http_request "example.com") "")
      as (Hprocessor & _).
    + reflexivity.
    + rewrite Hprocessor. vm_compute. reflexivity.
Defined.

(** The example of the spec: Host example.com:9000 and target /chat. *)
Lemma http_request_uri_witness :
  exists c',
    handle_read_request Sample.plain
      (Sample.parser true (Sample.http_request "example.com:9000"))
      Sample.hybi Sample.default_port Sample.get_port_from_string false
      (connection_init "") = Normal tt c' /\
    m_uri c' = Some (mk_uri false "example.com" 9000 "/chat") /\
    status_code (m_response c') = 200.
Proof.
  destruct (http_request_uri Sample.plain
              (Sample.parser true (Sample.http_request "example.com:9000"))
              Sample.hybi Sample.default_port Sample.get_port_from_string
              (connection_init "") (Sample.http_request "example.com:9000") ""
              (at_http (connection_init "") (Sample.http_request "example.com:9000") ""))
    as (_ & Hcolon).
  - reflexivity.
  - vm_compute. reflexivity.
  - reflexivity.
  - apply (Hcolon "example.com" "9000" 9000%N).
    + vm_compute. reflexivity.
    + vm_compute. reflexivity.
    + vm_compute. reflexivity.
Defined.

Lemma parse_failure_bad_request_witness :
  exists c' new,
    handle_read_request Sample.plain (Sample.parser false request_init)
      Sample.hybi Sample.default_port Sample.get_port_from_string false
      (connection_init "garbage") = Normal tt c' /\
    status_code (m_response c') = 400 /\
    events c' = events (connection_init "garbage") ++ new /\
    In (ev_async_write (m_response c')) new /\
    ~ In ev_validate new /\ ~ In ev_http new.
Proof.
  apply (parse_failure_bad_request Sample.plain (Sample.parser false request_init)
           Sample.hybi Sample.default_port Sample.get_port_from_string
           (connection_init "garbage") false false request_init "");
    reflexivity.
Defined.

(** C7 on the connection a rejected request leaves behind: the response
    has status 400 and was written, but [handle_write_response] stops at the
    null [m_uri] in [log_open_result]; [terminate(true)] is not reached and
    the state stays CONNECTING. *)
Theorem graceful_close_lost_on_null_uri :
  let rejected :=
    final (handle_read_request Sample.plain (Sample.parser false request_init)
             Sample.hybi Sample.default_port Sample.get_port_from_string false
             (connection_init "garbage")) in
  status_code (m_response rejected) = 400 /\
  handle_write_response Sample.plain false rejected = Undefined rejected /\
  m_state rejected = CONNECTING /\
  ~ In (ev_terminate true) (events rejected).
Proof.
  intros rejected.
  split; [vm_compute; reflexivity |].
  split; [apply handle_write_response_null_uri; vm_compute; reflexivity |].
  split; [vm_compute; reflexivity |].
  vm_compute. intros [H | [H | [H | []]]]; discriminate H.
Qed.




Lemma null_uri_dereferenced_witness :
  exists c',
    handshake Sample.plain (Sample.parser false request_init)
      Sample.hybi Sample.default_port Sample.get_port_from_string false false
      (connection_init "garbage") = Undefined c' /\
    m_uri c' = None.
Proof.
  destruct (null_uri_dereferenced Sample.plain (Sample.parser false request_init)
              Sample.hybi Sample.default_port Sample.get_port_from_string
              "garbage" request_init "")
    as (c' & _ & Huri & _ & _ & Hhandshake).
  - reflexivity.
  - exists c'. split; [exact Hhandshake | exact Huri].
Defined.

(** * More of the role *)

(** ** What every run of [handle_read_request] does *)

Lemma writes_app (l l' : list event) : writes (l ++ l') = writes l ++ writes l'.
Proof. induction l as [| [] l IH]; simpl; congruence. Qed.

Lemma terminations_app (l l' : list event) :
  terminations (l ++ l') = terminations l ++ terminations l'.
Proof. induction l as [| [] l IH]; simpl; congruence. Qed.

Lemma invocations_app (l l' : list event) :
  invocations (l ++ l') = invocations l ++ invocations l'.
Proof. induction l as [| [] l IH]; simpl; congruence. Qed.

(** At the end of a run: name the new events and read the trace. *)
Ltac trace_leaf :=
  simpl_state; eexists; split; [rewrite <- ?app_assoc; reflexivity |];
  cbn [app terminations writes invocations];
  repeat (split || intro);
  try reflexivity; try discriminate; try congruence;
  try apply response_header_replace;
  try (eexists; reflexivity);
  try (apply Z.eqb_eq; assumption).

Section Every_run.
Variable m_endpoint : endpoint.
Variable parse_complete : request -> string -> bool * request * string.
Variable hybi : processor.
Variable default_port : bool -> N.
Variable get_port_from_string : string -> option N.

Local Abbreviation handle_read_request :=
  (handle_read_request m_endpoint parse_complete hybi default_port get_port_from_string).

(** Along every path: what is written and terminated, and how the function
    can end. *)
Lemma read_request_trace (c : connection) (error valid : bool) (r : request)
  (rest : string) :
  parse_complete (m_request c) (buffer c) = (valid, r, rest) ->
  exists new,
    events (final (handle_read_request error c)) = events c ++ new /\
    terminations new = (if error then [false] else []) /\
    writes new =
      match handle_read_request error c with
      | Normal _ c' => if error then [] else [m_response c']
      | _ => []
      end /\
    match handle_read_request error c with
    | Normal _ c' =>
        error = false ->
        response_header (m_response c') "Server" = "WebSocket++/2011-11-18" /\
        exists before, events c' = before ++ [ev_async_write (m_response c')]
    | Thrown e _ => error = false /\ valid = true /\ exists msg, e = invalid_argument msg
    | Undefined c' =>
        error = false /\ valid = true /\
        m_processor c' = None /\ status_code (m_response c') = 101
    end.
Proof.
  intros Hparse. unfold_role. destruct error; [run; trace_leaf |].
  rewrite bind_try.
  rewrite (try_bind_Normal _ _ _ _ _ _ (parse_request_run _ _ _ _ _ Hparse)).
  clear Hparse. destruct valid.
  - run_all; trace_leaf.
  - run_all; trace_leaf.
Qed.


(** When [handle_read_request] returns after a successful read it has
    handed exactly one response to [async_write], as its last act: the
    response of the connection, whose Server header is the one of the
    library whatever the handler or the processor had put there. *)
Theorem one_response_per_request (c c' : connection) :
  handle_read_request false c = Normal tt c' ->
  response_header (m_response c') "Server" = "WebSocket++/2011-11-18" /\
  (exists before, events c' = before ++ [ev_async_write (m_response c')]) /\
  exists new,
    events c' = events c ++ new /\ writes new = [m_response c'] /\ terminations new = [].
Proof.
  intros Hreturned.
  destruct (parse_complete (m_request c) (buffer c)) as [[valid r] rest] eqn:Hparse.
  destruct (read_request_trace c false valid r rest Hparse)
    as (new & Hevents & Hterminated & Hwritten & Hend).
  rewrite Hreturned in Hevents, Hwritten, Hend. cbn [final] in Hevents.
  destruct (Hend eq_refl) as [Hserver Hlast].
  split; [exact Hserver |]. split; [exact Hlast |]. exists new. auto.
Qed.

End Every_run.

(** ** The negotiated members stay within what the client requested *)

(** [negotiation_valid] looks at four members only. *)
Lemma negotiation_valid_same (c c' : connection) :
  m_subprotocol c' = m_subprotocol c ->
  m_extensions c' = m_extensions c ->
  m_requested_subprotocols c' = m_requested_subprotocols c ->
  m_requested_extensions c' = m_requested_extensions c ->
  negotiation_valid c -> negotiation_valid c'.
Proof. unfold negotiation_valid. intros -> -> -> ->. tauto. Qed.

(** A call of the public interface keeps the negotiation valid. *)
Lemma run_call_valid (a : api_call) (c : connection) :
  exists r s x,
    (run_call a c = Normal tt (renegotiated c r s x) \/
     exists e, run_call a c = Thrown e (renegotiated c r s x)) /\
    (negotiation_valid c -> negotiation_valid (renegotiated c r s x)).
Proof.
  destruct (run_call_cases a c) as (r & s & x & Hrun & Hkeep).
  destruct (is_setter a) eqn:Hsetter.
  - clear r s x Hrun Hkeep.
    destruct a; try discriminate Hsetter; cbn [run_call].
    + unfold select_subprotocol, bind, and_then, gets, modify, throw, ret.
      destruct (negb (String.eqb value "") && not_found value (m_requested_subprotocols c))
        eqn:Hfound.
      * exists (m_response c), (m_subprotocol c), (m_extensions c).
        rewrite renegotiated_id. split; [right; eauto | tauto].
      * exists (m_response c), value, (m_extensions c).
        split; [left; destruct c; reflexivity |].
        intros [_ Hext]. split; [| exact Hext]. cbn.
        apply andb_false_iff in Hfound as [Hempty | Hin].
        -- left. apply negb_false_iff in Hempty. now apply String.eqb_eq.
        -- right. now apply not_found_false.
    + unfold select_extension, bind, and_then, gets, modify, throw, ret.
      destruct (String.eqb value "").
      { exists (m_response c), (m_subprotocol c), (m_extensions c).
        rewrite renegotiated_id. split; [left; reflexivity | tauto]. }
      destruct (not_found value (m_requested_extensions c)) eqn:Hfound.
      * exists (m_response c), (m_subprotocol c), (m_extensions c).
        rewrite renegotiated_id. split; [right; eauto | tauto].
      * exists (m_response c), (m_subprotocol c), (m_extensions c ++ [value]).
        split; [left; destruct c; reflexivity |].
        intros [Hsub Hext]. split; [exact Hsub |]. cbn.
        apply Forall_app. split; [exact Hext |].
        constructor; [now apply not_found_false | constructor].
  - exists r, s, x. split; [exact Hrun |].
    destruct (Hkeep eq_refl) as [-> ->]. intros Hvalid.
    eapply negotiation_valid_same; [| | | | exact Hvalid]; reflexivity.
Qed.

(** So does the body of a handler method. *)
Lemma run_calls_valid (l : list api_call) (c : connection) :
  exists r s x,
    (run_calls l c = Normal tt (renegotiated c r s x) \/
     exists e, run_calls l c = Thrown e (renegotiated c r s x)) /\
    (negotiation_valid c -> negotiation_valid (renegotiated c r s x)).
Proof.
  revert c. induction l as [| a l IH]; intros c; cbn [run_calls].
  - exists (m_response c), (m_subprotocol c), (m_extensions c).
    rewrite renegotiated_id. split; [left; reflexivity | tauto].
  - unfold bind, and_then.
    destruct (run_call_valid a c) as (r & s & x & [Hrun | [e Hrun]] & Hvalid); rewrite Hrun.
    + destruct (IH (renegotiated c r s x)) as (r' & s' & x' & Hrest & Hvalid').
      exists r', s', x'. rewrite renegotiated_twice in Hrest, Hvalid'.
      split; [exact Hrest | tauto].
    + exists r, s, x. split; [right; eauto | exact Hvalid].
Qed.

(** The handler method at hand, with what [lem] says of its body. *)
Ltac run_hook lem :=
  match goal with
  | |- context [try_catch (bind (run_calls ?l) ?k) ?h ?s] =>
      let H := fresh "Hhook" in
      destruct (lem l s) as (? & ? & ? & [H | [? H]] & ?);
      [rewrite (try_bind_Normal _ _ _ _ _ _ H) | rewrite (try_bind_Thrown _ _ _ _ _ _ H)];
      clear H
  | |- context [bind (run_calls ?l) ?k ?s] =>
      let H := fresh "Hhook" in
      destruct (lem l s) as (? & ? & ? & [H | [? H]] & ?);
      [rewrite (bind_Normal _ _ _ _ _ H) | rewrite (bind_Thrown _ _ _ _ _ H)];
      clear H
  end.

Ltac run_all_with lem := run; repeat (first [run_hook lem | run_case]; run).

(** Read the members of the connections in the hypotheses too. *)
Ltac simpl_states :=
  cbn [m_version m_uri m_origin m_requested_subprotocols m_requested_extensions
       m_subprotocol m_extensions m_request m_response m_state m_processor buffer
       events with_version with_uri with_origin with_subprotocol with_extensions
       with_request with_response with_state with_processor with_buffer with_events
       renegotiated at_http at_validate at_on_open and_then caught final
       status_code status_msg response_version response_headers response_body
       Response.set_headers Response.set_version Response.set_status
       Response.set_status_msg Response.set_body Response.replace_header
       Response.add_header Response.remove_header
       SWITCHING_PROTOCOLS OK BAD_REQUEST Z.eqb Pos.eqb negb andb orb] in *.

(** At the end of a run: the negotiation is the one of [c], or the one a
    handler method left, and the requested lists are those of [c]. *)
Ltac valid_leaf :=
  unfold negotiation_valid in *; simpl_states; tauto.

Section Negotiation.
Variable m_endpoint : endpoint.
Variable parse_complete : request -> string -> bool * request * string.
Variable hybi : processor.
Variable default_port : bool -> N.
Variable get_port_from_string : string -> option N.

Local Abbreviation handle_read_request :=
  (handle_read_request m_endpoint parse_complete hybi default_port get_port_from_string).
Local Abbreviation handshake :=
  (handshake m_endpoint parse_complete hybi default_port get_port_from_string).

Lemma handle_read_request_valid (error : bool) (c : connection) :
  negotiation_valid c ->
  let c' := final (handle_read_request error c) in
  negotiation_valid c' /\
  m_requested_subprotocols c' = m_requested_subprotocols c /\
  m_requested_extensions c' = m_requested_extensions c.
Proof.
  intros Hvalid.
  destruct (parse_complete (m_request c) (buffer c)) as [[valid r] rest] eqn:Hparse.
  unfold_role. destruct error; [run; valid_leaf |].
  rewrite bind_try.
  rewrite (try_bind_Normal _ _ _ _ _ _ (parse_request_run _ _ _ _ _ Hparse)).
  clear Hparse.
  run_all_with run_calls_valid; valid_leaf.
Qed.

Lemma handle_write_response_valid (error : bool) (c : connection) :
  negotiation_valid c ->
  let c' := final (handle_write_response m_endpoint error c) in
  negotiation_valid c' /\
  m_requested_subprotocols c' = m_requested_subprotocols c /\
  m_requested_extensions c' = m_requested_extensions c.
Proof.
  intros Hvalid. unfold_role. destruct error; [run; valid_leaf |].
  run. destruct (m_uri c) as [u |]; [| valid_leaf].
  run_all_with run_calls_valid; valid_leaf.
Qed.

(** Where a handshake ends: where the read ended, unless a response was
    written, and then where the write ended. *)
Lemma final_handshake (read_error write_error : bool) (c : connection) :
  final (handshake read_error write_error c) =
  match handle_read_request read_error c with
  | Normal _ c' =>
      if read_error then c' else final (handle_write_response m_endpoint write_error c')
  | Thrown _ c' => c'
  | Undefined c' => c'
  end.
Proof.
  unfold_handshake. unfold bind, and_then.
  destruct (handle_read_request read_error c); destruct read_error; reflexivity.
Qed.

(** The invariant of the negotiated members: whatever the request, the
    collaborators and the handler do, a handshake leaves the selected
    subprotocol empty or among the requested ones and every accepted
    extension among the requested ones, and it does not touch the requested
    lists.  The same holds of any sequence of calls of the public
    interface. *)
Theorem negotiation_stays_valid (read_error write_error : bool) (c : connection) :
  negotiation_valid c ->
  (let c' := final (handshake read_error write_error c) in
   negotiation_valid c' /\
   m_requested_subprotocols c' = m_requested_subprotocols c /\
   m_requested_extensions c' = m_requested_extensions c) /\
  (forall l,
     let c' := final (run_calls l c) in
     negotiation_valid c' /\
     m_requested_subprotocols c' = m_requested_subprotocols c /\
     m_requested_extensions c' = m_requested_extensions c).
Proof.
  intros Hvalid. split.
  - cbv zeta. rewrite final_handshake.
    destruct (handle_read_request_valid read_error c Hvalid) as (Hread & Hsub & Hext).
    destruct (handle_read_request read_error c) as [[] c' | e c' | c']; cbn [final] in *;
      try (split; [exact Hread | split; assumption]).
    destruct read_error; [split; [exact Hread | split; assumption] |].
    destruct (handle_write_response_valid write_error c' Hread) as (Hwrite & Hsub' & Hext').
    split; [exact Hwrite | split; congruence].
  - intros l.
    destruct (run_calls_valid l c) as (r & s & x & [Hrun | [e Hrun]] & Hkeep);
      rewrite Hrun; cbn [final]; (split; [now apply Hkeep | split; reflexivity]).
Qed.

(** Nothing in the role fills the lists of requested subprotocols and
    extensions, which the constructor leaves empty.  So on a connection as
    constructed every non-empty selection is refused, and at the end of any
    handshake no subprotocol is selected and no extension accepted, whatever
    the handler tried. *)
Theorem nothing_to_negotiate (buf : string) (read_error write_error : bool) (v : string) :
  let c := connection_init buf in
  let c' := final (handshake read_error write_error c) in
  (v <> "" -> exists msg, select_subprotocol v c = Thrown (invalid_argument msg) c) /\
  (v <> "" -> exists msg, select_extension v c = Thrown (invalid_argument msg) c) /\
  Accessors.get_subprotocols c' = [] /\ Accessors.get_extensions c' = [] /\
  m_subprotocol c' = "" /\ m_extensions c' = [].
Proof.
  intros c c'.
  assert (Hvalid : negotiation_valid c).
  { split; [left; reflexivity | constructor]. }
  assert (Hend : negotiation_valid c' /\
                 m_requested_subprotocols c' = m_requested_subprotocols c /\
                 m_requested_extensions c' = m_requested_extensions c).
  { subst c'. rewrite final_handshake.
    destruct (handle_read_request_valid read_error c Hvalid) as (Hread & Hsub & Hext).
    destruct (handle_read_request read_error c) as [[] d | e d | d]; cbn [final] in *;
      try (split; [exact Hread | split; assumption]).
    destruct read_error; [split; [exact Hread | split; assumption] |].
    destruct (handle_write_response_valid write_error d Hread) as (Hwrite & Hsub' & Hext').
    split; [exact Hwrite | split; congruence]. }
  destruct Hend as ([Hselected Haccepted] & Hsub & Hext).
  change (m_requested_subprotocols c) with (@nil string) in Hsub.
  change (m_requested_extensions c) with (@nil string) in Hext.
  split; [| split; [| split; [exact Hsub | split; [exact Hext | split]]]].
  - intros Hv. unfold select_subprotocol, bind, and_then, gets, modify, throw, ret.
    cbn. rewrite eqb_empty_false by assumption. cbn. eauto.
  - intros Hv. unfold select_extension, bind, and_then, gets, modify, throw, ret.
    rewrite eqb_empty_false by assumption. cbn. eauto.
  - rewrite Hsub in Hselected. destruct Hselected as [H | []]. exact H.
  - rewrite Hext in Haccepted. destruct (m_extensions c') as [| x l]; [reflexivity |].
    inversion Haccepted as [| ? ? [] ?].
Qed.

End Negotiation.

(** ** The paths of the handshake, one by one *)

(** [write_response] on a response that does not switch protocols. *)
Lemma write_response_plain (c : connection) :
  status_code (m_response c) <> 101 ->
  write_response c =
  Normal tt (written c (served (Response.set_version (m_response c) "HTTP/1.1"))).
Proof.
  intros Hcode. apply Z.eqb_neq in Hcode. change 101 with SWITCHING_PROTOCOLS in Hcode.
  unfold_role. run. rewrite Hcode. run. unfold written, served.
  now rewrite <- app_assoc.
Qed.

(** [write_response] on a 101 response, with the processor in place. *)
Lemma write_response_switching (c : connection) (p : processor) :
  status_code (m_response c) = 101 ->
  m_processor c = Some p ->
  let populated :=
    handshake_response p (m_request c) (Response.set_version (m_response c) "HTTP/1.1") in
  write_response c =
  Normal tt
    (written c
       (served (if String.eqb (m_subprotocol c) "" then populated
                else Response.replace_header populated "Sec-WebSocket-Protocol"
                       (m_subprotocol c)))).
Proof.
  intros Hcode Hprocessor populated. unfold_role. run. rewrite Hcode. run.
  rewrite Hprocessor. run. fold populated. unfold written, served.
  destruct (String.eqb (m_subprotocol c) ""); run; now rewrite <- app_assoc.
Qed.

(** [handle_write_response] after a response that did not switch protocols,
    with the uri in place. *)
Lemma handle_write_response_closes (m_endpoint : endpoint) (c : connection) (u : uri) :
  m_uri c = Some u ->
  status_code (m_response c) <> 101 ->
  handle_write_response m_endpoint false c = Normal tt (closed c u).
Proof.
  intros Huri Hcode. apply Z.eqb_neq in Hcode. change 101 with SWITCHING_PROTOCOLS in Hcode.
  unfold_role. run. rewrite Huri. run. rewrite Hcode. run. unfold closed, connect_line.
  destruct (m_version c =? -1); run; now rewrite <- ?app_assoc.
Qed.

Section Paths.
Variable m_endpoint : endpoint.
Variable parse_complete : request -> string -> bool * request * string.
Variable hybi : processor.
Variable default_port : bool -> N.
Variable get_port_from_string : string -> option N.

Local Abbreviation handle_read_request :=
  (handle_read_request m_endpoint parse_complete hybi default_port get_port_from_string).
Local Abbreviation handshake :=
  (handshake m_endpoint parse_complete hybi default_port get_port_from_string).

(** The run of an upgrade to a supported version up to the [validate]
    method of the handler, for each way the method can end. *)
Lemma upgrade_reaches_validate (c : connection) (r : request) (rest : string)
  (u : option uri) :
  parse_complete (m_request c) (buffer c) = (true, r, rest) ->
  requests_supported_version r = true ->
  validate_handshake hybi r = returned tt ->
  get_uri hybi r = returned u ->
  let here := at_validate c r rest hybi u in
  let body := validate (get_handler m_endpoint) here in
  (forall c1,
     run_calls body here = Normal tt c1 ->
     handle_read_request false c =
     write_response
       (with_response c1 (Response.set_status (m_response c1) SWITCHING_PROTOCOLS))) /\
  (forall c1 msg code error_msg body',
     run_calls body here = Thrown (http_exception msg code error_msg body') c1 ->
     handle_read_request false c =
     write_response
       (with_response (with_events c1 (events c1 ++ [ev_log (elog msg)]))
          (Response.set_body (Response.set_status_msg (m_response c1) code error_msg)
             body'))) /\
  (forall c1 msg,
     run_calls body here = Thrown (invalid_argument msg) c1 ->
     handle_read_request false c = Thrown (invalid_argument msg) c1).
Proof.
  intros Hparse Hsupported Hvalidated Huri here body.
  destruct (supported_version_tests r _ eq_refl Hsupported)
    as (Hup & Hpresent & Hnonzero & Hset).
  unfold_role. rewrite bind_try.
  rewrite (try_bind_Normal _ _ _ _ _ _ (parse_request_run _ _ _ _ _ Hparse)).
  run. rewrite Hup. run. rewrite Hpresent. run. rewrite Hnonzero. run.
  rewrite Hnonzero, Hset. run. rewrite Hvalidated. run. rewrite Huri. run.
  match goal with
  | |- context [try_catch (bind (run_calls (_ ?s)) _) _ ?s] =>
      replace s with here
        by (unfold here, at_validate, with_events; simpl_state; now rewrite <- !app_assoc)
  end.
  fold body. split; [| split].
  - intros c1 H. rewrite (try_bind_Normal _ _ _ _ _ _ H). run. reflexivity.
  - intros c1 msg code error_msg body' H. rewrite (try_bind_Thrown _ _ _ _ _ _ H). run.
    reflexivity.
  - intros c1 msg H. rewrite (try_bind_Thrown _ _ _ _ _ _ H). run. reflexivity.
Qed.

(** What a handler method leaves of the connection it was invoked on. *)
Lemma run_calls_frame (l : list api_call) (here c1 : connection) (o : result unit) :
  run_calls l here = o -> final o = c1 ->
  exists resp sp ex, c1 = renegotiated here resp sp ex.
Proof.
  intros <- <-.
  destruct (run_calls_cases l here) as (resp & sp & ex & [H | [e H]] & _);
    rewrite H; cbn [final]; eauto.
Qed.

End Paths.

(** [write_response] on a 101 response when no processor was created. *)
Lemma write_response_null_processor (c : connection) :
  status_code (m_response c) = 101 ->
  m_processor c = None ->
  write_response c =
  Undefined (with_response c (Response.set_version (m_response c) "HTTP/1.1")).
Proof.
  intros Hcode Hprocessor. unfold_role. run. rewrite Hcode. run.
  rewrite Hprocessor. run. reflexivity.
Qed.

(** A supported version is not the [-1] of a plain HTTP connection. *)
Lemma supported_version_not_http (r : request) :
  requests_supported_version r = true ->
  (atoi (request_header r "Sec-WebSocket-Version") =? -1) = false.
Proof.
  intros H. destruct (supported_version_tests r _ eq_refl H) as (_ & _ & _ & Hset).
  destruct (Z.eqb_spec (atoi (request_header r "Sec-WebSocket-Version")) (-1)) as [E | E];
    [| reflexivity].
  rewrite E in Hset. discriminate Hset.
Qed.

(** [handle_write_response] after a 101 response, with the uri in place, for
    each way the [on_open] method of the handler can end. *)
Lemma handle_write_response_opens (m_endpoint : endpoint) (c : connection) (u : uri) :
  m_uri c = Some u ->
  status_code (m_response c) = 101 ->
  let here := at_on_open c (connect_line c u) in
  let body := on_open (get_handler m_endpoint) here in
  (forall c1,
     run_calls body here = Normal tt c1 ->
     handle_write_response m_endpoint false c =
     Normal tt (with_events c1 (events c1 ++ [ev_handle_read_frame]))) /\
  (forall e c1,
     run_calls body here = Thrown e c1 ->
     handle_write_response m_endpoint false c = Thrown e c1).
Proof.
  intros Huri Hcode here body. unfold_role. run. rewrite Huri. run. rewrite Hcode. run.
  match goal with
  | |- context [bind (run_calls (_ ?s)) _ ?s] =>
      replace s with here
        by (unfold here, at_on_open, connect_line, with_events; simpl_state;
            now rewrite Hcode, <- app_assoc)
  end.
  fold body. split.
  - intros c1 H. rewrite (bind_Normal _ _ _ _ _ H). run. reflexivity.
  - intros e c1 H. now rewrite (bind_Thrown _ _ _ _ _ H).
Qed.

(** The body of a handler method runs call after call. *)
Lemma run_calls_app (l1 l2 : list api_call) (c : connection) :
  run_calls (l1 ++ l2) c = (run_calls l1 ;; run_calls l2) c.
Proof.
  revert c. induction l1 as [| a l1 IH]; intros c; cbn [app run_calls].
  - reflexivity.
  - unfold bind, and_then. destruct (run_call a c); [apply IH | reflexivity | reflexivity].
Qed.

(** A method whose calls before [set_body] return. *)
Lemma run_calls_set_body (pre post : list api_call) (value : string)
  (here c1 : connection) :
  run_calls pre here = Normal tt c1 ->
  run_calls (pre ++ call_set_body value :: post) here =
  if m_version c1 =? -1 then
    run_calls post (with_response c1 (Response.set_body (m_response c1) value))
  else Thrown (invalid_argument "set_body called from invalid state") c1.
Proof.
  intros Hpre. rewrite run_calls_app, (bind_Normal _ _ _ _ _ Hpre).
  cbn [run_calls run_call]. unfold set_body, on_response. run.
  destruct (m_version c1 =? -1); run; reflexivity.
Qed.

Section Outcomes.
Variable m_endpoint : endpoint.
Variable parse_complete : request -> string -> bool * request * string.
Variable hybi : processor.
Variable default_port : bool -> N.
Variable get_port_from_string : string -> option N.

Local Abbreviation handle_read_request :=
  (handle_read_request m_endpoint parse_complete hybi default_port get_port_from_string).
Local Abbreviation handshake :=
  (handshake m_endpoint parse_complete hybi default_port get_port_from_string).

(** The run of a request that is no upgrade up to the [http] method of the
    handler, for each way the method can end. *)
Lemma request_reaches_http (c : connection) (r : request) (rest : string) :
  parse_complete (m_request c) (buffer c) = (true, r, rest) ->
  ifind_first (request_header r "Upgrade") "websocket" = false ->
  let here := at_http c r rest in
  let body := http (get_handler m_endpoint) here in
  (forall c1,
     run_calls body here = Normal tt c1 ->
     handle_read_request false c =
     let c2 := with_origin c1 (request_header r "Origin") in
     match uri_of_host default_port get_port_from_string (is_secure m_endpoint) (request_header r "Host") (request_uri r) with
     | Some u =>
         write_response
           (with_response (with_uri c2 (Some u)) (Response.set_status (m_response c1) OK))
     | None =>
         write_response
           (with_response
              (with_events c2 (events c1 ++ [ev_log (elog "Error parsing port string")]))
              (Response.set_status (m_response c1) BAD_REQUEST))
     end) /\
  (forall c1 msg code error_msg body',
     run_calls body here = Thrown (http_exception msg code error_msg body') c1 ->
     handle_read_request false c =
     write_response
       (with_response (with_events c1 (events c1 ++ [ev_log (elog msg)]))
          (Response.set_body (Response.set_status_msg (m_response c1) code error_msg)
             body'))) /\
  (forall c1 msg,
     run_calls body here = Thrown (invalid_argument msg) c1 ->
     handle_read_request false c = Thrown (invalid_argument msg) c1).
Proof.
  intros Hparse Hup here body.
  unfold_role. rewrite bind_try.
  rewrite (try_bind_Normal _ _ _ _ _ _ (parse_request_run _ _ _ _ _ Hparse)).
  run. rewrite Hup. run.
  match goal with
  | |- context [try_catch (bind (run_calls (_ ?s)) _) _ ?s] =>
      replace s with here
        by (unfold here, at_http, with_events; simpl_state; now rewrite <- app_assoc)
  end.
  fold body. split; [| split].
  - intros c1 H. rewrite (try_bind_Normal _ _ _ _ _ _ H). run.
    destruct (run_calls_frame _ _ c1 _ H eq_refl) as (resp & sp & ex & Hc1).
    subst c1. unfold here. simpl_state. unfold uri_of_host, substr.
    destruct (find (request_header r "Host") ":") as [found |];
      [destruct (get_port_from_string _) |]; run; reflexivity.
  - intros c1 msg code error_msg body' H. rewrite (try_bind_Thrown _ _ _ _ _ _ H). run.
    reflexivity.
  - intros c1 msg H. rewrite (try_bind_Thrown _ _ _ _ _ _ H). run. reflexivity.
Qed.

Lemma handshake_after_read (c c' : connection) :
  handle_read_request false c = Normal tt c' ->
  handshake false false c = handle_write_response m_endpoint false c'.
Proof. intros H. unfold_handshake. now rewrite (bind_Normal _ _ _ _ _ H). Qed.


(** An upgrade to a supported version that the processor and the handler
    accept, and whose answer the processor leaves at status 101: the
    connection ends OPEN with the version, origin, uri and processor of the
    request; [validate] and then [on_open] are invoked, once each; one
    response is written, with status 101; [terminate] is not called; and
    the frame loop is entered exactly when [on_open] returns. *)
Theorem accepted_upgrade_opens (c : connection) (r : request) (rest : string) (u : uri)
  (c1 : connection) :
  parse_complete (m_request c) (buffer c) = (true, r, rest) ->
  requests_supported_version r = true ->
  validate_handshake hybi r = returned tt ->
  get_uri hybi r = returned (Some u) ->
  let here := at_validate c r rest hybi (Some u) in
  run_calls (validate (get_handler m_endpoint) here) here = Normal tt c1 ->
  status_code
    (handshake_response hybi r
       (Response.set_version (Response.set_status (m_response c1) SWITCHING_PROTOCOLS)
          "HTTP/1.1")) = 101 ->
  let c'' := final (handshake false false c) in
  m_state c'' = OPEN /\
  m_version c'' = atoi (request_header r "Sec-WebSocket-Version") /\
  m_origin c'' = get_origin hybi r /\
  m_uri c'' = Some u /\
  m_processor c'' = Some hybi /\
  exists new,
    events c'' = events c ++ new /\
    invocations new = [ev_validate; ev_on_open] /\
    terminations new = [] /\
    (exists raw, writes new = [raw] /\ status_code raw = 101) /\
    (In ev_handle_read_frame new <-> exists c3, handshake false false c = Normal tt c3).
Proof.
  intros Hparse Hsupported Hvalidated Huri here Hhook Hanswer.
  destruct (upgrade_reaches_validate m_endpoint parse_complete hybi default_port
              get_port_from_string c r rest (Some u) Hparse Hsupported Hvalidated Huri)
    as (Haccepted & _).
  specialize (Haccepted _ Hhook).
  destruct (run_calls_frame _ _ c1 _ Hhook eq_refl) as (resp & sp & ex & Hc1).
  subst c1. unfold here, at_validate in Haccepted, Hanswer. simpl_states.
  rewrite (write_response_switching _ hybi) in Haccepted
    by (simpl_state; reflexivity).
  simpl_states.
  rewrite (handshake_after_read _ _ Haccepted). clear Haccepted Hhook.
  match goal with
  | |- context [handle_write_response _ _ ?s] =>
      destruct (handle_write_response_opens m_endpoint s u) as [Hreturns Hthrows]
  end.
  { unfold written. simpl_state. reflexivity. }
  { unfold written, served. simpl_state.
    destruct (String.eqb sp ""); simpl_state; exact Hanswer. }
  match type of Hreturns with
  | forall c1, run_calls ?l ?s = _ -> _ =>
      destruct (run_calls_cases l s) as (resp' & sp' & ex' & [H | [e H]] & _)
  end.
  - rewrite (Hreturns _ H). clear Hreturns Hthrows H.
    unfold written, served, at_on_open. simpl_state.
    repeat (split; [reflexivity |]).
    rewrite <- !app_assoc. eexists. split; [reflexivity |].
    cbn [app invocations writes terminations In].
    repeat (split; [reflexivity |]).
    split.
    + eexists. split; [reflexivity |].
      destruct (String.eqb sp ""); simpl_state; exact Hanswer.
    + split; [eauto | intuition].
  - rewrite (Hthrows _ _ H). clear Hreturns Hthrows H.
    unfold written, served, at_on_open. simpl_state.
    repeat (split; [reflexivity |]).
    rewrite <- !app_assoc. eexists. split; [reflexivity |].
    cbn [app invocations writes terminations In].
    repeat (split; [reflexivity |]).
    split.
    + eexists. split; [reflexivity |].
      destruct (String.eqb sp ""); simpl_state; exact Hanswer.
    + split; [intuition discriminate | intros [c3 Hc3]; discriminate Hc3].
Qed.

(** A request that is no upgrade, on a connection whose version is still
    the [-1] of the constructor, with a Host header the uri can be built
    from: [http] is invoked once, the response has status 200 and is the
    one response written, the uri and the origin of the request are stored,
    and the connection is closed by [terminate(true)] without any error
    line in the log. *)
Theorem http_request_served (c : connection) (r : request) (rest : string) (u : uri)
  (c1 : connection) :
  parse_complete (m_request c) (buffer c) = (true, r, rest) ->
  ifind_first (request_header r "Upgrade") "websocket" = false ->
  m_version c = -1 ->
  run_calls (http (get_handler m_endpoint) (at_http c r rest)) (at_http c r rest)
    = Normal tt c1 ->
  uri_of_host default_port get_port_from_string (is_secure m_endpoint)
    (request_header r "Host") (request_uri r) = Some u ->
  exists c' c'' new,
    handle_read_request false c = Normal tt c' /\
    status_code (m_response c') = 200 /\
    handshake false false c = Normal tt c'' /\
    m_state c'' = CLOSED /\
    m_uri c'' = Some u /\
    m_origin c'' = request_header r "Origin" /\
    m_processor c'' = m_processor c /\
    events c'' = events c ++ new /\
    invocations new = [ev_http] /\
    writes new = [m_response c'] /\
    terminations new = [true] /\
    forall msg, ~ In (ev_log (elog msg)) new.
Proof.
  intros Hparse Hup Hversion Hhook Huri.
  destruct (request_reaches_http c r rest Hparse Hup) as (Hserved & _).
  specialize (Hserved _ Hhook). cbv zeta in Hserved. rewrite Huri in Hserved.
  destruct (run_calls_frame _ _ c1 _ Hhook eq_refl) as (resp & sp & ex & Hc1).
  rewrite write_response_plain in Hserved by (simpl_state; discriminate).
  eexists _, _, _. split; [exact Hserved |].
  rewrite (handshake_after_read _ _ Hserved).
  rewrite (handle_write_response_closes _ _ u)
    by (subst c1; unfold written, served; simpl_state;
        first [reflexivity | discriminate]).
  subst c1. unfold closed, written, served, connect_line.
  simpl_state. rewrite Hversion. simpl_state.
  repeat (split; [reflexivity |]).
  rewrite <- !app_assoc.
  split; [reflexivity |]. cbn [app invocations writes terminations In].
  repeat (split; [reflexivity |]). intuition discriminate.
Qed.

(** A request that is no upgrade and whose Host header names a port that
    does not parse: the uri constructor throws, the exception is caught and
    logged, and the response is written with status 400.  The uri of the
    connection is left as it was; the origin had been stored before. *)
Theorem bad_port_rejected (c : connection) (r : request) (rest : string)
  (c1 : connection) :
  parse_complete (m_request c) (buffer c) = (true, r, rest) ->
  ifind_first (request_header r "Upgrade") "websocket" = false ->
  run_calls (http (get_handler m_endpoint) (at_http c r rest)) (at_http c r rest)
    = Normal tt c1 ->
  uri_of_host default_port get_port_from_string (is_secure m_endpoint)
    (request_header r "Host") (request_uri r) = None ->
  exists c' new,
    handle_read_request false c = Normal tt c' /\
    status_code (m_response c') = 400 /\
    response_body (m_response c') = response_body (m_response c1) /\
    m_uri c' = m_uri c /\
    m_origin c' = request_header r "Origin" /\
    events c' = events c ++ new /\
    invocations new = [ev_http] /\
    writes new = [m_response c'] /\
    In (ev_log (elog "Error parsing port string")) new.
Proof.
  intros Hparse Hup Hhook Huri.
  destruct (request_reaches_http c r rest Hparse Hup) as (Hserved & _).
  specialize (Hserved _ Hhook). cbv zeta in Hserved. rewrite Huri in Hserved.
  destruct (run_calls_frame _ _ c1 _ Hhook eq_refl) as (resp & sp & ex & Hc1).
  rewrite write_response_plain in Hserved by (simpl_state; discriminate).
  eexists _, _. split; [exact Hserved |].
  subst c1. unfold written, served. simpl_state.
  repeat (split; [reflexivity |]).
  rewrite <- !app_assoc.
  split; [reflexivity |]. cbn [app invocations writes terminations In].
  repeat (split; [reflexivity |]). auto.
Qed.

(** The [http] method of the handler throws an [http::exception] whose
    status is 101 while the connection has no processor: [write_response]
    takes the websocket branch and dereferences the null [m_processor].
    Nothing is written. *)
Theorem http_handler_switching_protocols (c : connection) (r : request) (rest : string)
  (c1 : connection) (msg error_msg body : string) :
  parse_complete (m_request c) (buffer c) = (true, r, rest) ->
  ifind_first (request_header r "Upgrade") "websocket" = false ->
  m_processor c = None ->
  run_calls (http (get_handler m_endpoint) (at_http c r rest)) (at_http c r rest)
    = Thrown (http_exception msg 101 error_msg body) c1 ->
  exists c' new,
    handle_read_request false c = Undefined c' /\
    handshake false false c = Undefined c' /\
    events c' = events c ++ new /\
    writes new = [] /\
    terminations new = [].
Proof.
  intros Hparse Hup Hprocessor Hhook.
  destruct (request_reaches_http c r rest Hparse Hup) as (_ & Hthrown & _).
  specialize (Hthrown _ _ _ _ _ Hhook).
  destruct (run_calls_frame _ _ c1 _ Hhook eq_refl) as (resp & sp & ex & Hc1).
  rewrite write_response_null_processor in Hthrown
    by (subst c1; simpl_state; first [reflexivity | exact Hprocessor]).
  eexists _, _. split; [exact Hthrown |].
  split; [unfold_handshake; now rewrite (bind_Undefined _ _ _ _ Hthrown) |].
  subst c1. simpl_state. rewrite <- !app_assoc.
  split; [reflexivity |]. cbn [app invocations writes terminations In].
  split; reflexivity.
Qed.

(** [set_body] called from the [validate] method of the handler: the
    version of the connection is the one of the upgrade, not [-1], so the
    call throws [std::invalid_argument]; [handle_read_request] does not
    catch it, and no response is written. *)
Theorem set_body_in_validate_escapes (c : connection) (r : request) (rest : string)
  (u : option uri) (pre post : list api_call) (value : string) (c1 : connection) :
  parse_complete (m_request c) (buffer c) = (true, r, rest) ->
  requests_supported_version r = true ->
  validate_handshake hybi r = returned tt ->
  get_uri hybi r = returned u ->
  let here := at_validate c r rest hybi u in
  validate (get_handler m_endpoint) here = pre ++ call_set_body value :: post ->
  run_calls pre here = Normal tt c1 ->
  handle_read_request false c =
    Thrown (invalid_argument "set_body called from invalid state") c1 /\
  exists new, events c1 = events c ++ new /\ writes new = [].
Proof.
  intros Hparse Hsupported Hvalidated Huri here Hbody Hpre.
  destruct (upgrade_reaches_validate m_endpoint parse_complete hybi default_port
              get_port_from_string c r rest u Hparse Hsupported Hvalidated Huri)
    as (_ & _ & Hescapes).
  fold here in Hescapes.
  pose proof (run_calls_set_body pre post value here c1 Hpre) as Hrun.
  destruct (run_calls_frame _ _ c1 _ Hpre eq_refl) as (resp & sp & ex & Hc1).
  rewrite <- Hbody in Hrun.
  replace (m_version c1 =? -1) with false in Hrun
    by (subst c1; unfold here, at_validate; simpl_state;
        now rewrite (supported_version_not_http r Hsupported)).
  split; [exact (Hescapes _ _ Hrun) |].
  subst c1. unfold here, at_validate. simpl_state. eexists. split; reflexivity.
Qed.

(** [set_body] called last from the [http] method of the handler, on a
    connection whose version is still [-1]: the call returns, and the body
    it set is the body of the response that is written. *)
Theorem set_body_in_http_is_written (c : connection) (r : request) (rest : string)
  (pre : list api_call) (value : string) (c1 : connection) :
  parse_complete (m_request c) (buffer c) = (true, r, rest) ->
  ifind_first (request_header r "Upgrade") "websocket" = false ->
  m_version c = -1 ->
  let here := at_http c r rest in
  http (get_handler m_endpoint) here = pre ++ [call_set_body value] ->
  run_calls pre here = Normal tt c1 ->
  exists c' before,
    handle_read_request false c = Normal tt c' /\
    response_body (m_response c') = value /\
    (status_code (m_response c') = 200 \/ status_code (m_response c') = 400) /\
    events c' = before ++ [ev_async_write (m_response c')].
Proof.
  intros Hparse Hup Hversion here Hbody Hpre.
  destruct (request_reaches_http c r rest Hparse Hup) as (Hserved & _).
  fold here in Hserved.
  pose proof (run_calls_set_body pre [] value here c1 Hpre) as Hrun.
  destruct (run_calls_frame _ _ c1 _ Hpre eq_refl) as (resp & sp & ex & Hc1).
  rewrite <- Hbody in Hrun.
  replace (m_version c1 =? -1) with true in Hrun
    by (subst c1; unfold here; simpl_state; now rewrite Hversion).
  cbn [run_calls] in Hrun. rewrite run_ret in Hrun.
  specialize (Hserved _ Hrun). cbv zeta in Hserved.
  destruct (uri_of_host _ _ _ _ _);
    rewrite write_response_plain in Hserved by (simpl_state; discriminate);
    eexists _, _; (split; [exact Hserved |]);
    unfold written, served; simpl_state;
    (split; [reflexivity |]); (split; [auto |]); exact (app_assoc _ [_] [_]).
Qed.

(** A failed upgrade on a connection that has no uri yet: the version is
    missing or unsupported, or the processor rejects the handshake with an
    [http::exception].  The response is written without the handler having
    been invoked, the uri is still null, and [handle_write_response]
    dereferences it in [log_open_result]. *)
Theorem failed_upgrade_null_uri (c : connection) (r : request) (rest : string) :
  m_uri c = None ->
  parse_complete (m_request c) (buffer c) = (true, r, rest) ->
  ifind_first (request_header r "Upgrade") "websocket" = true ->
  requests_supported_version r = false \/
  (exists msg code error_msg body,
     validate_handshake hybi r = threw (http_exception msg code error_msg body)) ->
  exists c' new,
    handle_read_request false c = Normal tt c' /\
    m_uri c' = None /\
    events c' = events c ++ new /\
    invocations new = [] /\
    handshake false false c = Undefined c'.
Proof.
  intros Hnull Hparse Hup Hfailed.
  assert (Hread : exists c' new,
             handle_read_request false c = Normal tt c' /\
             m_uri c' = None /\
             events c' = events c ++ new /\
             invocations new = []).
  { assert (Hleaf : forall (c' : connection) (new : list event),
              m_uri c' = None -> events c' = events c ++ new -> invocations new = [] ->
              exists c'' new',
                Normal tt c' = Normal tt c'' /\ m_uri c'' = None /\
                events c'' = events c ++ new' /\ invocations new' = []).
    { intros c' new H1 H2 H3. exists c', new. auto. }
    unfold_role. rewrite bind_try.
    rewrite (try_bind_Normal _ _ _ _ _ _ (parse_request_run _ _ _ _ _ Hparse)).
    clear Hparse. run. rewrite Hup. run.
    destruct (requests_supported_version r) eqn:Hsupported.
    - destruct Hfailed as [Hfailed | (msg & code & error_msg & body & Hthrew)];
        [discriminate Hfailed |].
      destruct (supported_version_tests r _ eq_refl Hsupported)
        as (_ & Hpresent & Hnonzero & Hset).
      rewrite Hpresent. run. rewrite Hnonzero. run. rewrite Hnonzero, Hset. run.
      rewrite Hthrew. run.
      destruct (code =? SWITCHING_PROTOCOLS); run;
        [destruct (String.eqb (m_subprotocol c) ""); run |];
        (eapply Hleaf;
         [simpl_state; exact Hnull | simpl_state; rewrite <- ?app_assoc; reflexivity
         | reflexivity]).
    - clear Hfailed. unfold requests_supported_version in Hsupported.
      rewrite Hup in Hsupported. cbn [andb] in Hsupported.
      destruct (String.eqb (request_header r "Sec-WebSocket-Version") "") eqn:Hpresent.
      + run.
        eapply Hleaf;
          [simpl_state; exact Hnull | simpl_state; rewrite <- ?app_assoc; reflexivity
          | reflexivity].
      + run. destruct (atoi (request_header r "Sec-WebSocket-Version") =? 0) eqn:Hzero.
        * run.
          eapply Hleaf;
            [simpl_state; exact Hnull | simpl_state; rewrite <- ?app_assoc; reflexivity
            | reflexivity].
        * run. rewrite Hzero, Hsupported. run.
          eapply Hleaf;
            [simpl_state; exact Hnull | simpl_state; rewrite <- ?app_assoc; reflexivity
            | reflexivity]. }
  destruct Hread as (c' & new & Hread & Huri & Hevents & Hnone).
  exists c', new. repeat (split; [assumption |]).
  rewrite (handshake_after_read _ _ Hread).
  now apply handle_write_response_null_uri.
Qed.

(** Transport errors.  A read error is logged and the connection is
    terminated with [terminate(false)]; nothing is parsed, written or
    handed to the handler, and the write handler never runs.  A write error
    after a response was handed over is logged and the connection is
    terminated the same way: the uri is not dereferenced and [on_open] is
    not invoked, whatever the status of the response. *)
Theorem transport_errors_terminate (c : connection) (write_error : bool) :
  handshake true write_error c =
    Normal tt
      (with_state
         (with_events c
            (events c ++ [ev_log (elog "Error reading HTTP request."); ev_terminate false]))
         CLOSED) /\
  forall c',
    handle_read_request false c = Normal tt c' ->
    handshake false true c =
      Normal tt
        (with_state
           (with_events c'
              (events c' ++
               [ev_log (elog "Network error writing handshake respons.");
                ev_terminate false]))
           CLOSED).
Proof.
  split.
  - unfold_role. run. now rewrite <- app_assoc.
  - intros c' Hread. unfold_handshake. rewrite (bind_Normal _ _ _ _ _ Hread).
    unfold_role. run. now rewrite <- app_assoc.
Qed.
End Outcomes.

(** ** The Host header and the version header *)

(** The uri built from a Host header: the host is the part before the
    first colon and holds no colon itself, and the header is the host, or
    the host, a colon and the port string that was parsed. *)
Theorem host_header_split (default_port : bool -> N)
  (get_port_from_string : string -> option N) (secure : bool) (h target : string)
  (u : uri) :
  uri_of_host default_port get_port_from_string secure h target = Some u ->
  get_secure u = secure /\
  get_resource u = target /\
  find (get_host u) ":" = None /\
  ((h = get_host u /\ get_port u = default_port secure) \/
   exists port,
     h = get_host u +:+ ":" +:+ port /\ get_port_from_string port = Some (get_port u)).
Proof.
  unfold uri_of_host. destruct (find h ":") as [found |] eqn:Hfound.
  - destruct (substr_at_first h ":" found Hfound) as [Hsplit Hnone].
    destruct (get_port_from_string (substr h (found + 1) None)) as [p |] eqn:Hport;
      [| discriminate].
    intros [= <-]. cbn [get_secure get_resource get_host get_port].
    repeat (split; [reflexivity || assumption |]).
    right. exists (substr h (found + 1) None). split; assumption.
  - intros [= <-]. cbn [get_secure get_resource get_host get_port].
    repeat (split; [reflexivity || assumption |]).
    left. split; reflexivity.
Qed.

(** The version header is read with [atoi]: what follows the leading
    digits is ignored. *)
Lemma digits_value_stops (acc : Z) (junk : string) :
  match junk with String d _ => is_digit d = false | EmptyString => True end ->
  digits_value acc junk = acc.
Proof. destruct junk as [| d junk]; cbn [digits_value]; [reflexivity |]. now intros ->. Qed.

(** An upgrade whose version header starts with 7, 8 or 13 and goes on
    with anything but a digit asks for a supported version. *)
Theorem version_header_trailing_text (r : request) (v junk : string) :
  ifind_first (request_header r "Upgrade") "websocket" = true ->
  In v ["7"; "8"; "13"] ->
  match junk with String d _ => is_digit d = false | EmptyString => True end ->
  request_header r "Sec-WebSocket-Version" = v +:+ junk ->
  atoi (request_header r "Sec-WebSocket-Version") = atoi v /\
  requests_supported_version r = true.
Proof.
  intros Hup Hv Hjunk Hheader. unfold requests_supported_version.
  rewrite Hup, Hheader. cbn [andb].
  assert (Hvalue : atoi (v +:+ junk) = atoi v).
  { destruct Hv as [<- | [<- | [<- | []]]]; unfold atoi, strtol.
    - change (skip_space ("7" +:+ junk)) with (String "7" junk). cbv beta iota.
      change (digits_value 0 (String "7" junk)) with (digits_value 7 junk).
      now rewrite (digits_value_stops _ junk Hjunk).
    - change (skip_space ("8" +:+ junk)) with (String "8" junk). cbv beta iota.
      change (digits_value 0 (String "8" junk)) with (digits_value 8 junk).
      now rewrite (digits_value_stops _ junk Hjunk).
    - change (skip_space ("13" +:+ junk)) with (String "1" (String "3" junk)).
      cbv beta iota.
      change (digits_value 0 (String "1" (String "3" junk))) with (digits_value 13 junk).
      now rewrite (digits_value_stops _ junk Hjunk). }
  rewrite Hvalue. split; [reflexivity |].
  destruct Hv as [<- | [<- | [<- | []]]]; reflexivity.
Qed.

(** ** The listener *)

Lemma started_app (l1 l2 : list server_event) :
  started (l1 ++ l2) = started l1 ++ started l2.
Proof.
  induction l1 as [| e l1 IH]; [reflexivity |].
  destruct e; cbn [app started]; now rewrite IH.
Qed.

Lemma accept_errors_app (l1 l2 : list server_event) :
  accept_errors (l1 ++ l2) = (accept_errors l1 + accept_errors l2)%nat.
Proof.
  induction l1 as [| e l1 IH]; [reflexivity |].
  destruct e; cbn [app accept_errors]; now rewrite IH.
Qed.

(** The accept loop from a server with an accept pending on the connection
    made last. *)
Lemma run_accepts (completions : list bool) (s : server) (con : nat) :
  pending s = Some con ->
  created s = S con ->
  let s' := io_service_run completions s in
  created s' = (created s + length completions)%nat /\
  pending s' = Some (con + length completions)%nat /\
  started (trace s') = started (trace s) ++ accepted_from con completions /\
  accept_errors (trace s') =
    (accept_errors (trace s) + length (List.filter (fun error : bool => error) completions))%nat.
Proof.
  revert s con. induction completions as [| error completions IH]; intros s con Hp Hc.
  - cbn [io_service_run length accepted_from List.filter]. rewrite app_nil_r, !Nat.add_0_r. auto.
  - cbn [io_service_run]. rewrite Hp.
    destruct (IH (handle_accept con error (mk_server (created s) None (trace s)))
                (S con)) as (H1 & H2 & H3 & H4).
    + unfold handle_accept, start_accept, server_emit.
      destruct error; cbn [created pending trace]; now rewrite Hc.
    + unfold handle_accept, start_accept, server_emit.
      destruct error; cbn [created pending trace]; now rewrite Hc.
    + cbv zeta. rewrite H1, H2, H3, H4. clear IH H1 H2 H3 H4.
      unfold handle_accept, start_accept, server_emit.
      destruct error; cbn [created pending trace length accepted_from List.filter];
        rewrite ?started_app, ?accept_errors_app; cbn [started accept_errors];
        rewrite ?app_nil_r, <- ?app_assoc; cbn [app];
        (split; [lia |]); (split; [f_equal; lia |]); (split; [reflexivity | lia]).
Qed.

(** [listen] followed by any number of accept completions: an
    [async_accept] is pending on the connection made last, so the server
    keeps accepting after errors as after successes; one connection was
    made for the first accept and one after each completion; [start] was
    called once on each connection whose accept completed without error, in
    the order of the accepts, and on no other; and each accept error was
    logged. *)
Theorem listen_keeps_accepting (port : Z) (completions : list bool) (s : server) :
  let s' := listen port completions s in
  created s' = (created s + length completions + 1)%nat /\
  pending s' = Some (created s + length completions)%nat /\
  started (trace s') = started (trace s) ++ accepted_from (created s) completions /\
  accept_errors (trace s') =
    (accept_errors (trace s) + length (List.filter (fun error : bool => error) completions))%nat.
Proof.
  unfold listen.
  match goal with
  | |- context [io_service_run completions ?s0] =>
      destruct (run_accepts completions s0 (created s) eq_refl eq_refl)
        as (H1 & H2 & H3 & H4)
  end.
  cbv zeta. rewrite H1, H2, H3, H4. clear H1 H2 H3 H4.
  unfold start_accept, server_emit. cbn [created pending trace].
  rewrite !started_app, !accept_errors_app. cbn [started accept_errors].
  rewrite ?app_nil_r, ?Nat.add_0_r.
  split; [lia |]. split; [reflexivity |]. split; reflexivity.
Qed.

(** ** The uri of the connection *)

(** [write_response] does not touch the uri. *)
Lemma write_response_keeps_uri (c : connection) :
  m_uri (final (write_response c)) = m_uri c.
Proof. unfold_role. run_all; reflexivity. Qed.

(** The uri built from a Host header is on the transport of the endpoint
    and names the target of the request. *)
Lemma uri_of_host_parts (default_port : bool -> N)
  (get_port_from_string : string -> option N) (secure : bool) (h target : string)
  (u : uri) :
  uri_of_host default_port get_port_from_string secure h target = Some u ->
  get_secure u = secure /\ get_resource u = target.
Proof.
  unfold uri_of_host. destruct (find h ":"); [destruct (get_port_from_string _) |];
    intros [= <-]; split; reflexivity.
Qed.

Section Uri_of_the_connection.
Variable m_endpoint : endpoint.
Variable parse_complete : request -> string -> bool * request * string.
Variable hybi : processor.
Variable default_port : bool -> N.
Variable get_port_from_string : string -> option N.

Local Abbreviation handle_read_request :=
  (handle_read_request m_endpoint parse_complete hybi default_port get_port_from_string).

(** [handle_read_request] leaves the uri of the connection as it was,
    except on two paths: an upgrade to a supported version that the
    processor validated stores what [get_uri] of the processor returned, and
    a request that is no upgrade stores the uri built from its Host
    header. *)
Theorem uri_kept_unless_accepted (c : connection) (error valid : bool) (r : request)
  (rest : string) :
  parse_complete (m_request c) (buffer c) = (valid, r, rest) ->
  let c' := final (handle_read_request error c) in
  m_uri c' = m_uri c \/
  (error = false /\ valid = true /\
   ((requests_supported_version r = true /\
     validate_handshake hybi r = returned tt /\
     get_uri hybi r = returned (m_uri c')) \/
    (ifind_first (request_header r "Upgrade") "websocket" = false /\
     uri_of_host default_port get_port_from_string (is_secure m_endpoint)
       (request_header r "Host") (request_uri r) = m_uri c'))).
Proof.
  intros Hparse. cbv zeta. destruct error; [left; unfold_role; run; reflexivity |].
  unfold_role. rewrite bind_try.
  rewrite (try_bind_Normal _ _ _ _ _ _ (parse_request_run _ _ _ _ _ Hparse)).
  clear Hparse. destruct valid; [| left; run_all; reflexivity].
  run. destruct (ifind_first (request_header r "Upgrade") "websocket") eqn:Hup.
  - (* an upgrade *)
    destruct (requests_supported_version r) eqn:Hsupported.
    + destruct (supported_version_tests r _ eq_refl Hsupported)
        as (_ & Hpresent & Hnonzero & Hset).
      run. rewrite Hpresent. run. rewrite Hnonzero. run.
      rewrite Hnonzero, Hset. run.
      destruct (validate_handshake hybi r) as [[] | e] eqn:Hvalidated;
        [| left; run_all; reflexivity].
      run. destruct (get_uri hybi r) as [u | e] eqn:Huri;
        [| left; run_all; reflexivity].
      right. do 2 (split; [reflexivity |]). left. do 2 (split; [reflexivity |]).
      f_equal. run_all; reflexivity.
    + left. unfold requests_supported_version in Hsupported.
      rewrite Hup in Hsupported. cbn [andb] in Hsupported. run.
      destruct (String.eqb (request_header r "Sec-WebSocket-Version") "");
        [run_all; reflexivity |].
      run. destruct (atoi (request_header r "Sec-WebSocket-Version") =? 0) eqn:Hzero;
        [run_all; reflexivity |].
      run. rewrite Hzero, Hsupported. run_all; reflexivity.
  - (* no upgrade *)
    run. run_case; run; [| left; run_all; reflexivity].
    unfold uri_of_host, substr.
    destruct (find (request_header r "Host") ":") as [found |].
    + destruct (get_port_from_string _) as [p |].
      * right. do 2 (split; [reflexivity |]). right. split; [reflexivity |].
        run_all; reflexivity.
      * left. run_all; reflexivity.
    + right. do 2 (split; [reflexivity |]). right. split; [reflexivity |].
      run_all; reflexivity.
Qed.

(** The accessors around a plain HTTP request on a new connection.  As
    constructed the connection has no uri, and the four accessors that read
    it dereference a null pointer.  Once [handle_read_request] has served
    the request they return the parts of the uri built from the Host header
    and the target.  [get_version] converts the [-1] of a connection that
    is no websocket to [unsigned int]: 4294967295, before and after. *)
Theorem accessors_around_http_request (buf : string) (r : request) (rest : string)
  (u : uri) (c1 : connection) :
  let c := connection_init buf in
  parse_complete request_init buf = (true, r, rest) ->
  ifind_first (request_header r "Upgrade") "websocket" = false ->
  run_calls (http (get_handler m_endpoint) (at_http c r rest)) (at_http c r rest)
    = Normal tt c1 ->
  uri_of_host default_port get_port_from_string (is_secure m_endpoint)
    (request_header r "Host") (request_uri r) = Some u ->
  let c' := final (handle_read_request false c) in
  (Accessors.get_secure c = Undefined c /\
   Accessors.get_host c = Undefined c /\
   Accessors.get_resource c = Undefined c /\
   Accessors.get_port c = Undefined c) /\
  (Accessors.get_secure c' = Normal (is_secure m_endpoint) c' /\
   Accessors.get_host c' = Normal (get_host u) c' /\
   Accessors.get_resource c' = Normal (request_uri r) c' /\
   Accessors.get_port c' = Normal (get_port u) c') /\
  Accessors.get_version c = 4294967295 /\
  Accessors.get_version c' = 4294967295 /\
  Accessors.get_origin c' = request_header r "Origin" /\
  forall key, Accessors.get_request_header key c' = request_header r key.
Proof.
  intros c Hparse Hup Hhook Huri c'.
  split; [repeat split |].
  destruct (request_reaches_http m_endpoint parse_complete hybi default_port
              get_port_from_string c r rest Hparse Hup) as (Hserved & _).
  specialize (Hserved _ Hhook). cbv zeta in Hserved. rewrite Huri in Hserved.
  destruct (run_calls_frame _ _ c1 _ Hhook eq_refl) as (resp & sp & ex & Hc1).
  rewrite write_response_plain in Hserved by (simpl_state; discriminate).
  destruct (uri_of_host_parts _ _ _ _ _ _ Huri) as [Hsecure Hresource].
  subst c'. rewrite Hserved. subst c1. cbn [final].
  unfold Accessors.get_secure, Accessors.get_host, Accessors.get_resource,
    Accessors.get_port, Accessors.get_version, Accessors.get_origin,
    Accessors.get_request_header, written.
  run. unfold deref. simpl_state. rewrite Hsecure, Hresource.
  repeat split.
Qed.

End Uri_of_the_connection.

(** ** The properties on sample requests *)


Lemma one_response_per_request_witness :
  let c := connection_init "" in
  let r := Sample.http_request "example.com" in
  exists c' new,
    Scenario.reads Sample.quiet r c = Normal tt c' /\
    response_header (m_response c') "Server" = "WebSocket++/2011-11-18" /\
    events c' = events c ++ new /\ writes new = [m_response c'].
Proof.
  intros c r.
  assert (Hread : exists c', Scenario.reads Sample.quiet r c = Normal tt c').
  { destruct (request_reaches_http (Scenario.endpoint_with Sample.quiet)
                (Sample.parser true r) Sample.hybi Sample.default_port
                Sample.get_port_from_string c r "") as (Hserved & _).
    - reflexivity.
    - vm_compute. reflexivity.
    - specialize (Hserved (at_http c r "") eq_refl). cbv zeta in Hserved.
      replace (uri_of_host Sample.default_port Sample.get_port_from_string
                 (is_secure (Scenario.endpoint_with Sample.quiet))
                 (request_header r "Host") (request_uri r))
        with (Some (mk_uri false "example.com" 80 "/chat")) in Hserved
        by (vm_compute; reflexivity).
      rewrite write_response_plain in Hserved by discriminate.
      eexists. exact Hserved. }
  destruct Hread as [c' Hread].
  destruct (one_response_per_request (Scenario.endpoint_with Sample.quiet)
              (Sample.parser true r) Sample.hybi Sample.default_port
              Sample.get_port_from_string c c' Hread)
    as (Hserver & _ & new & Hevents & Hwrites & _).
  exists c', new. exact (conj Hread (conj Hserver (conj Hevents Hwrites))).
Defined.

Lemma negotiation_stays_valid_witness :
  let c := Sample.open_connection in
  negotiation_valid c /\
  negotiation_valid
    (final (run_calls [call_select_subprotocol "chat"; call_select_extension "deflate";
                       call_select_extension "gzip"] c)).
Proof.
  intros c.
  assert (Hvalid : negotiation_valid c) by (split; [left; reflexivity | constructor]).
  split; [exact Hvalid |].
  destruct (negotiation_stays_valid Sample.plain (Sample.parser true request_init)
              Sample.hybi Sample.default_port Sample.get_port_from_string false false c
              Hvalid) as [_ Hcalls].
  exact (proj1 (Hcalls _)).
Defined.

Lemma nothing_to_negotiate_witness :
  (exists msg, select_subprotocol "chat" (connection_init "") =
               Thrown (invalid_argument msg) (connection_init "")) /\
  m_subprotocol
    (final (Scenario.shakes Scenario.selecting (Sample.upgrade_request "13")
              (connection_init ""))) = "".
Proof.
  destruct (nothing_to_negotiate (Scenario.endpoint_with Scenario.selecting)
              (Sample.parser true (Sample.upgrade_request "13")) Sample.hybi
              Sample.default_port Sample.get_port_from_string "" false false "chat")
    as (Hrefused & _ & _ & _ & Hnone & _).
  split; [apply Hrefused; discriminate | exact Hnone].
Defined.


Lemma accepted_upgrade_opens_witness :
  let c := connection_init "" in
  let c'' := final (Scenario.shakes Sample.quiet (Sample.upgrade_request "13") c) in
  m_state c'' = OPEN /\
  m_version c'' = 13 /\
  exists new,
    events c'' = events c ++ new /\
    invocations new = [ev_validate; ev_on_open] /\
    terminations new = [].
Proof.
  intros c c''.
  destruct (accepted_upgrade_opens (Scenario.endpoint_with Sample.quiet)
              (Sample.parser true (Sample.upgrade_request "13")) Sample.hybi
              Sample.default_port Sample.get_port_from_string c
              (Sample.upgrade_request "13") ""
              (mk_uri false "example.com" 80 "/chat")
              (at_validate c (Sample.upgrade_request "13") "" Sample.hybi
                 (Some (mk_uri false "example.com" 80 "/chat"))))
    as (Hstate & Hversion & _ & _ & _ & new & Hevents & Hinvoked & Hterminated & _).
  - reflexivity.
  - vm_compute. reflexivity.
  - reflexivity.
  - vm_compute. reflexivity.
  - reflexivity.
  - reflexivity.
  - assert (Hthirteen : atoi (request_header (Sample.upgrade_request "13")
                                   "Sec-WebSocket-Version") = 13)
      by (vm_compute; reflexivity).
    split; [exact Hstate |]. split; [exact (eq_trans Hversion Hthirteen) |].
    exists new. exact (conj Hevents (conj Hinvoked Hterminated)).
Defined.

Lemma http_request_served_witness :
  let c := connection_init "" in
  let r := Sample.http_request "example.com:9000" in
  exists c'',
    Scenario.shakes Sample.quiet r c = Normal tt c'' /\
    m_state c'' = CLOSED /\
    m_uri c'' = Some (mk_uri false "example.com" 9000 "/chat") /\
    terminations (events c'') = [true].
Proof.
  intros c r.
  destruct (http_request_served (Scenario.endpoint_with Sample.quiet)
              (Sample.parser true r) Sample.hybi Sample.default_port
              Sample.get_port_from_string c r ""
              (mk_uri false "example.com" 9000 "/chat") (at_http c r ""))
    as (c' & c'' & new & _ & _ & Hshake & Hstate & Huri & _ & _ & Hevents & _ & _
        & Hterminated & _).
  - reflexivity.
  - vm_compute. reflexivity.
  - reflexivity.
  - reflexivity.
  - vm_compute. reflexivity.
  - exists c''. split; [exact Hshake |]. split; [exact Hstate |]. split; [exact Huri |].
    rewrite Hevents. exact Hterminated.
Defined.

Lemma bad_port_rejected_witness :
  let c := connection_init "" in
  let r := Sample.http_request "example.com:http" in
  exists c',
    Scenario.reads Sample.quiet r c = Normal tt c' /\
    status_code (m_response c') = 400 /\
    m_uri c' = None.
Proof.
  intros c r.
  destruct (bad_port_rejected (Scenario.endpoint_with Sample.quiet)
              (Sample.parser true r) Sample.hybi Sample.default_port
              Sample.get_port_from_string c r "" (at_http c r ""))
    as (c' & new & Hread & Hcode & _ & Huri & _).
  - reflexivity.
  - vm_compute. reflexivity.
  - reflexivity.
  - vm_compute. reflexivity.
  - exists c'. exact (conj Hread (conj Hcode Huri)).
Defined.

Lemma http_handler_switching_protocols_witness :
  let c := connection_init "" in
  let r := Sample.http_request "example.com" in
  exists c', Scenario.shakes Scenario.switching r c = Undefined c'.
Proof.
  intros c r.
  destruct (http_handler_switching_protocols (Scenario.endpoint_with Scenario.switching)
              (Sample.parser true r) Sample.hybi Sample.default_port
              Sample.get_port_from_string c r "" (at_http c r "") "switch" "" "")
    as (c' & new & _ & Hshake & _).
  - reflexivity.
  - vm_compute. reflexivity.
  - reflexivity.
  - reflexivity.
  - exists c'. exact Hshake.
Defined.

Lemma set_body_in_validate_escapes_witness :
  let c := connection_init "" in
  let r := Sample.upgrade_request "13" in
  exists c',
    Scenario.reads (Scenario.with_body "hello") r c =
    Thrown (invalid_argument "set_body called from invalid state") c'.
Proof.
  intros c r.
  destruct (set_body_in_validate_escapes
              (Scenario.endpoint_with (Scenario.with_body "hello"))
              (Sample.parser true r) Sample.hybi Sample.default_port
              Sample.get_port_from_string c r ""
              (Some (mk_uri false "example.com" 80 "/chat")) [] [] "hello"
              (at_validate c r "" Sample.hybi
                 (Some (mk_uri false "example.com" 80 "/chat"))))
    as (Hescapes & _).
  - reflexivity.
  - vm_compute. reflexivity.
  - reflexivity.
  - vm_compute. reflexivity.
  - reflexivity.
  - reflexivity.
  - eexists. exact Hescapes.
Defined.

Lemma set_body_in_http_is_written_witness :
  let c := connection_init "" in
  let r := Sample.http_request "example.com" in
  exists c',
    Scenario.reads (Scenario.with_body "hello") r c = Normal tt c' /\
    response_body (m_response c') = "hello".
Proof.
  intros c r.
  destruct (set_body_in_http_is_written
              (Scenario.endpoint_with (Scenario.with_body "hello"))
              (Sample.parser true r) Sample.hybi Sample.default_port
              Sample.get_port_from_string c r "" [] "hello" (at_http c r ""))
    as (c' & before & Hread & Hbody & _).
  - reflexivity.
  - vm_compute. reflexivity.
  - reflexivity.
  - reflexivity.
  - reflexivity.
  - exists c'. exact (conj Hread Hbody).
Defined.

Lemma failed_upgrade_null_uri_witness :
  let c := connection_init "" in
  let r := Sample.upgrade_request "99" in
  exists c',
    Scenario.reads Sample.quiet r c = Normal tt c' /\
    Scenario.shakes Sample.quiet r c = Undefined c'.
Proof.
  intros c r.
  destruct (failed_upgrade_null_uri (Scenario.endpoint_with Sample.quiet)
              (Sample.parser true r) Sample.hybi Sample.default_port
              Sample.get_port_from_string c r "")
    as (c' & new & Hread & _ & _ & _ & Hshake).
  - reflexivity.
  - reflexivity.
  - vm_compute. reflexivity.
  - left. vm_compute. reflexivity.
  - exists c'. exact (conj Hread Hshake).
Defined.

Lemma transport_errors_terminate_witness :
  let c := connection_init "" in
  terminations
    (events
       (final (handshake Sample.plain (Sample.parser true request_init) Sample.hybi
                 Sample.default_port Sample.get_port_from_string true false c)))
    = [false].
Proof.
  intros c.
  rewrite (proj1 (transport_errors_terminate Sample.plain (Sample.parser true request_init)
                    Sample.hybi Sample.default_port Sample.get_port_from_string c false)).
  reflexivity.
Defined.

Lemma host_header_split_witness :
  find "example.com" ":" = None /\
  exists port,
    "example.com:9000" = "example.com" +:+ ":" +:+ port /\
    Sample.get_port_from_string port = Some 9000%N.
Proof.
  destruct (host_header_split Sample.default_port Sample.get_port_from_string false
              "example.com:9000" "/chat" (mk_uri false "example.com" 9000 "/chat"))
    as (_ & _ & Hhost & [[Hsame _] | (port & Hsplit & Hport)]).
  - vm_compute. reflexivity.
  - discriminate Hsame.
  - split; [exact Hhost |]. exists port. exact (conj Hsplit Hport).
Defined.

Lemma version_header_trailing_text_witness :
  requests_supported_version (Sample.upgrade_request "13, 8, 7") = true.
Proof.
  apply (version_header_trailing_text (Sample.upgrade_request "13, 8, 7") "13" ", 8, 7").
  - vm_compute. reflexivity.
  - right. right. left. reflexivity.
  - vm_compute. reflexivity.
  - vm_compute. reflexivity.
Defined.

Lemma uri_kept_unless_accepted_witness :
  let c := connection_init "" in
  m_uri (final (Scenario.reads Sample.quiet (Sample.upgrade_request "99") c)) = None.
Proof.
  intros c.
  destruct (uri_kept_unless_accepted (Scenario.endpoint_with Sample.quiet)
              (Sample.parser true (Sample.upgrade_request "99")) Sample.hybi
              Sample.default_port Sample.get_port_from_string c false true
              (Sample.upgrade_request "99") "")
    as [Hkept | (_ & _ & [(Hsupported & _) | (Hplain & _)])].
  - reflexivity.
  - exact Hkept.
  - vm_compute in Hsupported. discriminate Hsupported.
  - vm_compute in Hplain. discriminate Hplain.
Defined.

Lemma accessors_around_http_request_witness :
  let c := connection_init "" in
  let c' := final (Scenario.reads Sample.quiet (Sample.http_request "example.com:9000") c) in
  Accessors.get_host c = Undefined c /\
  Accessors.get_host c' = Normal "example.com" c' /\
  Accessors.get_port c' = Normal 9000%N c' /\
  Accessors.get_version c' = 4294967295.
Proof.
  intros c c'.
  destruct (accessors_around_http_request (Scenario.endpoint_with Sample.quiet)
              (Sample.parser true (Sample.http_request "example.com:9000")) Sample.hybi
              Sample.default_port Sample.get_port_from_string ""
              (Sample.http_request "example.com:9000") ""
              (mk_uri false "example.com" 9000 "/chat")
              (at_http c (Sample.http_request "example.com:9000") ""))
    as ((_ & Hbefore & _) & (_ & Hhost & _ & Hport) & _ & Hversion & _).
  - reflexivity.
  - vm_compute. reflexivity.
  - reflexivity.
  - vm_compute. reflexivity.
  - exact (conj Hbefore (conj Hhost (conj Hport Hversion))).
Defined.
